(** * workshop/collection.py: the workshop data-access layer

    A shallow embedding of [WorkshopCollection], [WorkshopAlias],
    [WorkshopSnippet] and their helpers, followed by the properties the
    specification states about them.

    Conventions of the embedding:
    - the document store ([current_app.mdb]) is an explicit value [Db] that
      every operation reads and, when it writes, returns;
    - a Python exception is the left summand of a result; a method that
      mutates [self] or the store before raising returns the state it left;
    - values that come from outside the program (a generated [ObjectId],
      the clock) are passed in an [Env];
    - the three mixins of [workshop.utils] are interfaces ([Class]es). *)

From stdpp Require Import gmap strings list fin_maps.

Local Open Scope Z_scope.

(** ** Values *)

(** [bson.ObjectId]: a 12-byte identifier, read as a natural number. *)
Abbreviation ObjectId := N (only parsing).

(** [datetime.datetime] values are instants, counted in microseconds, the
    resolution of a Python [datetime]. *)
Abbreviation datetime := Z (only parsing).

Inductive PublicationState := PRIVATE | UNLISTED | PUBLISHED.

#[global] Instance PublicationState_eq_dec : EqDecision PublicationState.
Proof. solve_decision. Defined.

(** The exceptions raised in this module.  [AttributeError] is the lazy-load
    guard of the relationship accessors, and [OverflowError] is what the
    driver raises when it is given an integer it cannot encode. *)
Inductive Exn :=
| NotAllowed (msg : string)
| CollectionNotFound
| CollectableNotFound
| AttributeError (msg : string)
| OverflowError.

#[global] Instance Exn_eq_dec : EqDecision Exn.
Proof. solve_decision. Defined.

Record CodeVersion := mkCodeVersion {
  version : Z;
  content : string;
  cv_created_at : datetime;
  is_current : bool
}.

Record RequiredEntitlement := mkRequiredEntitlement {
  entity_type : string;
  entity_id : Z;
  required : bool
}.

(** A name binding, the dict [{"name": ..., "id": ...}]. *)
Record Binding := mkBinding {
  b_name : string;
  b_id : ObjectId
}.

#[global] Instance Binding_eq_dec : EqDecision Binding.
Proof. solve_decision. Defined.

(** ** The document store *)

(** A document of [workshop_collections]; its [_id] is the key it is stored
    under.  These are the keys of [to_dict]. *)
Record CollectionDoc := mkCollectionDoc {
  cd_name : string;
  cd_description : string;
  cd_image : option string;
  cd_owner : Z;
  cd_alias_ids : list ObjectId;
  cd_snippet_ids : list ObjectId;
  cd_publish_state : PublicationState;
  cd_num_subscribers : Z;
  cd_num_guild_subscribers : Z;
  cd_last_edited : datetime;
  cd_created_at : datetime;
  cd_tags : list string
}.

(** A document of [workshop_aliases]. *)
Record AliasDoc := mkAliasDoc {
  ad_name : string;
  ad_code : string;
  ad_versions : list CodeVersion;
  ad_docs : string;
  ad_entitlements : list RequiredEntitlement;
  ad_collection_id : ObjectId;
  ad_subcommand_ids : list ObjectId;
  ad_parent_id : option ObjectId
}.

(** A document of [workshop_snippets]. *)
Record SnippetDoc := mkSnippetDoc {
  sd_name : string;
  sd_code : string;
  sd_versions : list CodeVersion;
  sd_docs : string;
  sd_entitlements : list RequiredEntitlement;
  sd_collection_id : ObjectId
}.

(** A document of [workshop_subscriptions].  [object_id] is [self.id] of the
    collection, which is [None] until the collection has been inserted. *)
Record SubscriptionDoc := mkSubscriptionDoc {
  sub__id : ObjectId;
  sub_type : string;
  subscriber_id : Z;
  object_id : option ObjectId;
  alias_bindings : list Binding;
  snippet_bindings : list Binding
}.

(** A document of [analytics_alias_events]. *)
Record AnalyticsEvent := mkAnalyticsEvent {
  ev_type : string;
  ev_object_id : option ObjectId;
  ev_timestamp : datetime
}.

(** The collections of [current_app.mdb] this module touches.  Subscriptions
    and events are kept in insertion order. *)
Record Db := mkDb {
  workshop_collections : gmap N CollectionDoc;
  workshop_aliases : gmap N AliasDoc;
  workshop_snippets : gmap N SnippetDoc;
  workshop_subscriptions : list SubscriptionDoc;
  analytics_alias_events : list AnalyticsEvent
}.

(** ** What the driver encodes

    A document is encoded as BSON before it is sent to the store.  An integer
    is encoded in at most 8 bytes, and the driver raises [OverflowError] for
    one that does not fit; a date is encoded as a number of milliseconds, so
    the microseconds below the millisecond are dropped. *)
Definition bson_int (n : Z) : Prop :=
  -9223372036854775808 ≤ n ≤ 9223372036854775807.

Definition bson_datetime (t : datetime) : datetime := 1000 * (t / 1000).

(** The document of [workshop_collections] as the store keeps it. *)
Definition bson_collection (d : CollectionDoc) : CollectionDoc :=
  mkCollectionDoc (cd_name d) (cd_description d) (cd_image d) (cd_owner d)
    (cd_alias_ids d) (cd_snippet_ids d) (cd_publish_state d)
    (cd_num_subscribers d) (cd_num_guild_subscribers d)
    (bson_datetime (cd_last_edited d)) (bson_datetime (cd_created_at d)) (cd_tags d).

(** The document of [analytics_alias_events] as the store keeps it. *)
Definition bson_event (ev : AnalyticsEvent) : AnalyticsEvent :=
  mkAnalyticsEvent (ev_type ev) (ev_object_id ev) (bson_datetime (ev_timestamp ev)).

(** What the surroundings hand to one call: the identifier the driver
    generates ([ObjectId()], also for an inserted document without [_id]),
    the readings of [datetime.now()] and [datetime.utcnow()], and the order
    in which Python iterates over a [set] of identifiers. *)
Record Env := mkEnv {
  new_oid : ObjectId;
  now : datetime;
  utcnow : datetime;
  iter_set : gset N → list ObjectId
}.

(** Iterating over a set visits each of its elements once, in some order. *)
Definition iter_set_ok (env : Env) : Prop :=
  ∀ s : gset N, iter_set env s ≡ₚ elements s.

(** [if not isinstance(_id, ObjectId): _id = ObjectId(_id)] on the two kinds
    of value the typed fields hold: an [ObjectId] is kept, and [ObjectId(None)]
    generates a new identifier. *)
Definition coerce_ObjectId (env : Env) (_id : option ObjectId) : ObjectId :=
  match _id with
  | Some oid => oid
  | None => new_oid env
  end.

(** ** A state and exception monad

    [M S A] is a computation over a state [S] that returns an [A] or raises;
    the state reached when the exception is raised is kept, as in Python. *)
Definition M (S A : Type) : Type := S → (Exn + A) * S.

Definition ret {S A} (a : A) : M S A := λ s, (inr a, s).

Definition raise {S A} (e : Exn) : M S A := λ s, (inl e, s).

Definition bind {S A B} (m : M S A) (k : A → M S B) : M S B :=
  λ s, match m s with
       | (inl e, s') => (inl e, s')
       | (inr a, s') => k a s'
       end.

Definition gets {S A} (f : S → A) : M S A := λ s, (inr (f s), s).

Definition modify {S} (f : S → S) : M S unit := λ s, (inr tt, f s).

#[global] Instance M_ret {S} : MRet (M S) := λ A, ret.
#[global] Instance M_bind {S} : MBind (M S) := λ A B k m, bind m k.


(** [for x in l: body x], stopping at the first exception. *)
Fixpoint for_each {S A} (l : list A) (body : A → M S unit) : M S unit :=
  match l with
  | [] => mret tt
  | x :: l' => body x;; for_each l' body
  end.

(** A computation that does not touch the state. *)
Definition lift {S A} (r : Exn + A) : M S A := λ s, (r, s).

(** A fallible reading of the state. *)
Definition reads {S A} (f : S → Exn + A) : M S A := λ s, (f s, s).

(** Runs a computation on the second component of a pair of states. *)
Definition on_snd {S1 S2 A} (m : S1 → M S2 A) : M (S1 * S2) A :=
  λ '(s1, s2), let '(r, s2') := m s1 s2 in (r, (s1, s2')).

(** Runs a computation on the first component of a pair of states. *)
Definition on_fst {S1 S2 A} (m : M S1 A) : M (S1 * S2) A :=
  λ '(s1, s2), let '(r, s1') := m s1 in (r, (s1', s2)).

(** The references a member object holds to its collection.  Python stores
    the collection object itself; here the reference is the identity of the
    collection it points to, which is all the accessors below hand back. *)
Record CollectionRef := mkCollectionRef {
  ref_id : option ObjectId
}.

(** The loop shared by [load_aliases] and [load_snippets]: the cache starts
    as [acc] and grows by one fetched object per identifier; when a fetch
    raises, the objects appended so far stay in the cache. *)
Fixpoint load_members {A} (fetch : ObjectId → Exn + A) (ids : list ObjectId)
    (acc : list A) : (Exn + unit) * list A :=
  match ids with
  | [] => (inr tt, acc)
  | i :: ids' =>
      match fetch i with
      | inl e => (inl e, acc)
      | inr a => load_members fetch ids' (acc ++ [a])
      end
  end.

(** The character of the string ['\n']. *)
Definition newline : Ascii.ascii := Ascii.ascii_of_nat 10.

(** [s.split(sep)] for a separator of one character: the pieces between the
    occurrences of [sep], of which there is always at least one. *)
Fixpoint split (sep : Ascii.ascii) (s : string) : list string :=
  match s with
  | EmptyString => [EmptyString]
  | String c s' =>
      if decide (c = sep) then EmptyString :: split sep s'
      else match split sep s' with
           | [] => [String c EmptyString]
           | piece :: pieces => String c piece :: pieces
           end
  end.

(** ** class WorkshopCollectableObject *)
Module WorkshopCollectableObject.

Record t := mk {
  id : ObjectId;
  name : string;
  code : string;
  versions : list CodeVersion;
  docs : string;
  entitlements : list RequiredEntitlement;
  _collection : option CollectionRef;
  _collection_id : ObjectId
}.

Definition collection (self : t) : Exn + CollectionRef :=
  match _collection self with
  | None => inl (AttributeError "Collection is not loaded - run load_collection() first")
  | Some c => inr c
  end.

(** [out] is a [defaultdict] whose missing keys start as the empty list;
    the value returned is the dict it has become after the loop. *)
Definition get_entitlements (self : t) : gmap string (list Z) :=
  foldl (λ out ent,
           <[entity_type ent :=
               default [] (out !! entity_type ent) ++ [entity_id ent]]> out)
        ∅ (entitlements self).

(** [self.docs.split('\n')[0]]; [None] stands for the [IndexError] of
    indexing an empty list. *)
Definition short_docs (self : t) : option string :=
  split newline (docs self) !! 0%nat.

Definition set_collection (v : option CollectionRef) (self : t) : t :=
  mk (id self) (name self) (code self) (versions self) (docs self) (entitlements self)
     v (_collection_id self).

End WorkshopCollectableObject.

(** ** class WorkshopAlias(WorkshopCollectableObject) *)
Module WorkshopAlias.

(** [base] holds the fields set by [super().__init__].  A parent passed to
    the constructor is kept as the value it has at that moment. *)
#[warnings="-register-all"]
Inductive t := mk {
  base : WorkshopCollectableObject.t;
  _subcommands : option (list t);
  _parent : option t;
  _subcommand_ids : list ObjectId;
  _parent_id : option ObjectId
}.

Definition id (self : t) : ObjectId := WorkshopCollectableObject.id (base self).
Definition name (self : t) : string := WorkshopCollectableObject.name (base self).
Definition collection (self : t) : Exn + CollectionRef :=
  WorkshopCollectableObject.collection (base self).

Definition parent (self : t) : Exn + t :=
  match _parent self with
  | None => inl (AttributeError "Parent is not loaded yet - run load_parent() first")
  | Some p => inr p
  end.

Definition subcommands (self : t) : Exn + list t :=
  match _subcommands self with
  | None => inl (AttributeError "Subcommands are not loaded yet - run load_subcommands() first")
  | Some l => inr l
  end.

(** [__init__]: the subcommands start unloaded, the parent is the one given. *)
Definition init (_id : ObjectId) (name code : string) (versions : list CodeVersion)
    (docs : string) (entitlements : list RequiredEntitlement) (collection_id : ObjectId)
    (subcommand_ids : list ObjectId) (parent_id : option ObjectId)
    (collection : option CollectionRef) (parent : option t) : t :=
  mk (WorkshopCollectableObject.mk _id name code versions docs entitlements
        collection collection_id)
     None parent subcommand_ids parent_id.

(** [raw] is the stored document and [_id] the key it was found under;
    versions and entitlements are stored in the shape of their classes. *)
Definition from_dict (_id : ObjectId) (raw : AliasDoc)
    (collection : option CollectionRef) (parent : option t) : t :=
  init _id (ad_name raw) (ad_code raw) (ad_versions raw) (ad_docs raw)
       (ad_entitlements raw) (ad_collection_id raw)
       (ad_subcommand_ids raw) (ad_parent_id raw) collection parent.

Definition from_id (env : Env) (db : Db) (_id : option ObjectId)
    (collection : option CollectionRef) (parent : option t) : Exn + t :=
  let _id := coerce_ObjectId env _id in
  match workshop_aliases db !! _id with
  | None => inl CollectableNotFound
  | Some raw => inr (from_dict _id raw collection parent)
  end.

Definition set_parent (p : option t) (self : t) : t :=
  mk (base self) (_subcommands self) p (_subcommand_ids self) (_parent_id self).

Definition set_subcommands (l : option (list t)) (self : t) : t :=
  mk (base self) l (_parent self) (_subcommand_ids self) (_parent_id self).

(** The assignment to [self._parent] happens only when [from_id] returned. *)
Definition load_parent (env : Env) (db : Db) : M t t :=
  p ← reads (λ self, from_id env db (_parent_id self)
                       (WorkshopCollectableObject._collection (base self)) None);
  modify (set_parent (Some p));;
  mret p.

(** The loop of [load_subcommands]: each child is built with [self], as it
    stands with the children loaded so far, as its parent. *)
Fixpoint load_subcommands_loop (env : Env) (db : Db) (self : t)
    (subcommand_ids : list ObjectId) (acc : list t) : (Exn + unit) * list t :=
  match subcommand_ids with
  | [] => (inr tt, acc)
  | subcommand_id :: ids' =>
      match from_id env db (Some subcommand_id)
              (WorkshopCollectableObject._collection (base self))
              (Some (set_subcommands (Some acc) self)) with
      | inl e => (inl e, acc)
      | inr child => load_subcommands_loop env db self ids' (acc ++ [child])
      end
  end.

Definition load_subcommands (env : Env) (db : Db) : M t (list t) :=
  λ self,
    let '(r, cache) := load_subcommands_loop env db self (_subcommand_ids self) [] in
    (match r with inl e => inl e | inr _ => inr cache end, set_subcommands (Some cache) self).

End WorkshopAlias.

(** ** class WorkshopSnippet(WorkshopCollectableObject) *)
Module WorkshopSnippet.

Definition t := WorkshopCollectableObject.t.

Definition from_id (env : Env) (db : Db) (_id : option ObjectId)
    (collection : option CollectionRef) : Exn + t :=
  let _id := coerce_ObjectId env _id in
  match workshop_snippets db !! _id with
  | None => inl CollectableNotFound
  | Some raw =>
      inr (WorkshopCollectableObject.mk _id (sd_name raw) (sd_code raw) (sd_versions raw)
             (sd_docs raw) (sd_entitlements raw) collection (sd_collection_id raw))
  end.

End WorkshopSnippet.

(** ** The mixins of workshop.utils

    [WorkshopCollection] inherits from [SubscriberMixin], [GuildActiveMixin]
    and [EditorMixin].  Their code is outside this module; the methods this
    module calls are the interface below.  [self.id] is passed explicitly, and
    the inherited removals are computations on the store that may raise. *)
Class SubscriberMixin := {
  is_subscribed : Db → option ObjectId → Z → bool;
  SubscriberMixin_unsubscribe : option ObjectId → Z → M Db unit;
  my_sub_ids : Db → Z → list ObjectId
}.

Class GuildActiveMixin := {
  is_server_active : Db → option ObjectId → Z → bool;
  GuildActiveMixin_unset_server_active : option ObjectId → Z → M Db unit;
  guild_active_ids : Db → Z → list ObjectId
}.

(** ** Store operations *)

Definition set_collections (f : gmap N CollectionDoc → gmap N CollectionDoc) (db : Db) : Db :=
  mkDb (f (workshop_collections db)) (workshop_aliases db) (workshop_snippets db)
       (workshop_subscriptions db) (analytics_alias_events db).

Definition set_subscriptions (f : list SubscriptionDoc → list SubscriptionDoc) (db : Db) : Db :=
  mkDb (workshop_collections db) (workshop_aliases db) (workshop_snippets db)
       (f (workshop_subscriptions db)) (analytics_alias_events db).

Definition set_events (f : list AnalyticsEvent → list AnalyticsEvent) (db : Db) : Db :=
  mkDb (workshop_collections db) (workshop_aliases db) (workshop_snippets db)
       (workshop_subscriptions db) (f (analytics_alias_events db)).

(** [workshop_collections.update_one({"_id": _id}, update)]: the document
    with that [_id] is updated when there is one; no document has the [_id]
    [None]. *)
Definition update_one_collection (_id : option ObjectId)
    (update : CollectionDoc → CollectionDoc) : Db → Db :=
  set_collections (λ colls,
    match _id with
    | Some oid => alter update oid colls
    | None => colls
    end).

(** [{"$inc": {"num_subscribers": n}}] *)
Definition inc_num_subscribers (n : Z) (d : CollectionDoc) : CollectionDoc :=
  mkCollectionDoc (cd_name d) (cd_description d) (cd_image d) (cd_owner d)
    (cd_alias_ids d) (cd_snippet_ids d) (cd_publish_state d)
    (cd_num_subscribers d + n) (cd_num_guild_subscribers d)
    (cd_last_edited d) (cd_created_at d) (cd_tags d).

(** [{"$inc": {"num_guild_subscribers": n}}] *)
Definition inc_num_guild_subscribers (n : Z) (d : CollectionDoc) : CollectionDoc :=
  mkCollectionDoc (cd_name d) (cd_description d) (cd_image d) (cd_owner d)
    (cd_alias_ids d) (cd_snippet_ids d) (cd_publish_state d)
    (cd_num_subscribers d) (cd_num_guild_subscribers d + n)
    (cd_last_edited d) (cd_created_at d) (cd_tags d).

(** [workshop_subscriptions.insert_one(doc)] *)
Definition insert_subscription (doc : SubscriptionDoc) : Db → Db :=
  set_subscriptions (λ subs, subs ++ [doc]).

(** [analytics_alias_events.insert_one(ev)]; the event is kept as encoded. *)
Definition insert_event (ev : AnalyticsEvent) : Db → Db :=
  set_events (λ evs, evs ++ [bson_event ev]).

(** [workshop_collections.insert_one(doc)] for a document without [_id].  The
    driver encodes the document before anything is sent, so an integer that
    does not fit in 8 bytes raises [OverflowError] and nothing is stored;
    otherwise the encoded document is stored under the identifier the driver
    generates, which is reported as [inserted_id]. *)
Definition insert_one_collection (env : Env) (doc : CollectionDoc) : M Db ObjectId :=
  if decide (bson_int (cd_owner doc) ∧ bson_int (cd_num_subscribers doc)
             ∧ bson_int (cd_num_guild_subscribers doc))
  then modify (set_collections (λ colls, <[new_oid env := bson_collection doc]> colls));;
       mret (new_oid env)
  else raise OverflowError.

(** [update_one({"_id": _id}, {"$set": ...})] on the subscriptions: the first
    document with that [_id] is updated. *)
Fixpoint update_one_subscription (_id : ObjectId)
    (update : SubscriptionDoc → SubscriptionDoc) (subs : list SubscriptionDoc)
    : list SubscriptionDoc :=
  match subs with
  | [] => []
  | d :: subs' =>
      if decide (sub__id d = _id) then update d :: subs'
      else d :: update_one_subscription _id update subs'
  end.

Definition set_alias_bindings (bs : list Binding) (d : SubscriptionDoc) : SubscriptionDoc :=
  mkSubscriptionDoc (sub__id d) (sub_type d) (subscriber_id d) (object_id d)
    bs (snippet_bindings d).

Definition set_snippet_bindings (bs : list Binding) (d : SubscriptionDoc) : SubscriptionDoc :=
  mkSubscriptionDoc (sub__id d) (sub_type d) (subscriber_id d) (object_id d)
    (alias_bindings d) bs.

(** The class passed as [binding_cls]. *)
Inductive BindingCls := WorkshopAlias_cls | WorkshopSnippet_cls.

(** [obj = binding_cls.from_id(missing, collection=self)], read at the two
    attributes the caller uses: [(obj.name, obj.id)]. *)
Definition BindingCls_from_id (binding_cls : BindingCls) (env : Env) (db : Db)
    (_id : option ObjectId) (collection : option CollectionRef) : Exn + string * ObjectId :=
  match binding_cls with
  | WorkshopAlias_cls =>
      match WorkshopAlias.from_id env db _id collection None with
      | inl e => inl e
      | inr obj => inr (WorkshopAlias.name obj, WorkshopAlias.id obj)
      end
  | WorkshopSnippet_cls =>
      match WorkshopSnippet.from_id env db _id collection with
      | inl e => inl e
      | inr obj => inr (WorkshopCollectableObject.name obj, WorkshopCollectableObject.id obj)
      end
  end.

(** ** class WorkshopCollection(SubscriberMixin, GuildActiveMixin, EditorMixin) *)
Module WorkshopCollection.

(** The attributes in the order [__init__] assigns them. *)
Record t := mk {
  id : option ObjectId;
  name : string;
  description : string;
  image : option string;
  owner : Z;
  _aliases : option (list WorkshopAlias.t);
  _snippets : option (list WorkshopSnippet.t);
  publish_state : PublicationState;
  approx_num_subscribers : Z;
  approx_num_guild_subscribers : Z;
  last_edited : datetime;
  created_at : datetime;
  tags : list string;
  _alias_ids : list ObjectId;
  _snippet_ids : list ObjectId
}.

(** [__init__]: both caches start as [None]. *)
Definition init (_id : option ObjectId) (name description : string) (image : option string)
    (owner : Z) (alias_ids snippet_ids : list ObjectId) (publish_state : PublicationState)
    (num_subscribers num_guild_subscribers : Z) (last_edited created_at : datetime)
    (tags : list string) : t :=
  mk _id name description image owner None None publish_state
     num_subscribers num_guild_subscribers last_edited created_at tags
     alias_ids snippet_ids.

Definition set_id (v : option ObjectId) (self : t) : t :=
  mk v (name self) (description self) (image self) (owner self)
     (_aliases self) (_snippets self) (publish_state self)
     (approx_num_subscribers self) (approx_num_guild_subscribers self)
     (last_edited self) (created_at self) (tags self)
     (_alias_ids self) (_snippet_ids self).

Definition set_aliases (v : option (list WorkshopAlias.t)) (self : t) : t :=
  mk (id self) (name self) (description self) (image self) (owner self)
     v (_snippets self) (publish_state self)
     (approx_num_subscribers self) (approx_num_guild_subscribers self)
     (last_edited self) (created_at self) (tags self)
     (_alias_ids self) (_snippet_ids self).

Definition set_snippets (v : option (list WorkshopSnippet.t)) (self : t) : t :=
  mk (id self) (name self) (description self) (image self) (owner self)
     (_aliases self) v (publish_state self)
     (approx_num_subscribers self) (approx_num_guild_subscribers self)
     (last_edited self) (created_at self) (tags self)
     (_alias_ids self) (_snippet_ids self).

(** The reference to [self] that is handed to a member object. *)
Definition ref_of (self : t) : CollectionRef := mkCollectionRef (id self).

Definition aliases (self : t) : Exn + list WorkshopAlias.t :=
  match _aliases self with
  | None => inl (AttributeError "Aliases are not loaded yet - run load_aliases() first")
  | Some l => inr l
  end.

Definition snippets (self : t) : Exn + list WorkshopSnippet.t :=
  match _snippets self with
  | None => inl (AttributeError "Snippets are not loaded yet - run load_snippets() first")
  | Some l => inr l
  end.

(** [self._aliases = []], then one [append] per identifier.  The list is
    returned when every fetch succeeded. *)
Definition load_aliases (env : Env) (db : Db) : M t (list WorkshopAlias.t) :=
  λ self,
    let '(r, cache) :=
      load_members
        (λ alias_id, WorkshopAlias.from_id env db (Some alias_id) (Some (ref_of self)) None)
        (_alias_ids self) [] in
    (match r with inl e => inl e | inr _ => inr cache end, set_aliases (Some cache) self).

Definition load_snippets (env : Env) (db : Db) : M t (list WorkshopSnippet.t) :=
  λ self,
    let '(r, cache) :=
      load_members
        (λ snippet_id, WorkshopSnippet.from_id env db (Some snippet_id) (Some (ref_of self)))
        (_snippet_ids self) [] in
    (match r with inl e => inl e | inr _ => inr cache end, set_snippets (Some cache) self).

(** The stored [publish_state] is kept as the enumeration value it names. *)
Definition from_id (env : Env) (db : Db) (_id : option ObjectId) : Exn + t :=
  let _id := coerce_ObjectId env _id in
  match workshop_collections db !! _id with
  | None => inl CollectionNotFound
  | Some raw =>
      inr (init (Some _id) (cd_name raw) (cd_description raw) (cd_image raw) (cd_owner raw)
             (cd_alias_ids raw) (cd_snippet_ids raw) (cd_publish_state raw)
             (cd_num_subscribers raw) (cd_num_guild_subscribers raw)
             (cd_last_edited raw) (cd_created_at raw) (cd_tags raw))
  end.

(** The body shared by the generators [user_subscribed] and
    [server_subscribed]: the collections yielded, and the exception that ends
    the iteration if one escapes the [try]. *)
Fixpoint yield_collections (env : Env) (db : Db) (coll_ids : list ObjectId)
    : list t * option Exn :=
  match coll_ids with
  | [] => ([], None)
  | coll_id :: rest =>
      match from_id env db (Some coll_id) with
      | inr c => let '(ys, e) := yield_collections env db rest in (c :: ys, e)
      | inl CollectionNotFound => yield_collections env db rest
      | inl e => ([], Some e)
      end
  end.

Definition is_owner (self : t) (user_id : Z) : bool :=
  bool_decide (user_id = owner self).

(** [to_dict(js=False)] *)
Definition to_dict (self : t) : CollectionDoc :=
  mkCollectionDoc (name self) (description self) (image self) (owner self)
    (_alias_ids self) (_snippet_ids self) (publish_state self)
    (approx_num_subscribers self) (approx_num_guild_subscribers self)
    (last_edited self) (created_at self) (tags self).

(** [inst.id] is assigned only when [insert_one] returned. *)
Definition create_new (env : Env) (user_id : Z) (name description : string)
    (image : option string) : M Db t :=
  let inst := init None name description image user_id [] [] PRIVATE 0 0
                (now env) (now env) [] in
  inserted_id ← insert_one_collection env (to_dict inst);
  mret (set_id (Some inserted_id) inst).

Definition _generate_default_alias_bindings (env : Env) : M (Db * t) (list Binding) :=
  cached ← gets (λ st, _aliases st.2);
  aliases ← match cached with
            | None => on_snd (load_aliases env)
            | Some l => mret l
            end;
  mret ((λ alias, mkBinding (WorkshopAlias.name alias) (WorkshopAlias.id alias)) <$> aliases).

Definition _generate_default_snippet_bindings (env : Env) : M (Db * t) (list Binding) :=
  cached ← gets (λ st, _snippets st.2);
  snippets ← match cached with
             | None => on_snd (load_snippets env)
             | Some l => mret l
             end;
  mret ((λ snippet, mkBinding (WorkshopCollectableObject.name snippet)
                              (WorkshopCollectableObject.id snippet)) <$> snippets).

(** The state is the caller's list [the_bindings], which the loop extends in
    place; the value returned is the new, filtered list. *)
Definition _bindings_sanity_check (env : Env) (db : Db) (self : t)
    (the_ids : list ObjectId) (binding_cls : BindingCls) : M (list Binding) (list Binding) :=
  binding_ids ← gets (λ the_bindings, list_to_set (b_id <$> the_bindings) : gset N);
  let missing_ids := (list_to_set the_ids : gset N) ∖ binding_ids in
  for_each (iter_set env missing_ids) (λ missing,
    obj ← lift (BindingCls_from_id binding_cls env db (Some missing) (Some (ref_of self)));
    modify (λ the_bindings, the_bindings ++ [mkBinding obj.1 obj.2]));;
  gets (filter (λ b, b_id b ∈ the_ids)).

Definition update_alias_bindings (env : Env) (self : t) (subscription_doc : SubscriptionDoc)
    : M Db unit :=
  the_bindings ← reads (λ db,
    (_bindings_sanity_check env db self (_alias_ids self) WorkshopAlias_cls
       (alias_bindings subscription_doc)).1);
  modify (set_subscriptions
    (update_one_subscription (sub__id subscription_doc) (set_alias_bindings the_bindings))).

Definition update_snippet_bindings (env : Env) (self : t) (subscription_doc : SubscriptionDoc)
    : M Db unit :=
  the_bindings ← reads (λ db,
    (_bindings_sanity_check env db self (_snippet_ids self) WorkshopSnippet_cls
       (snippet_bindings subscription_doc)).1);
  modify (set_subscriptions
    (update_one_subscription (sub__id subscription_doc) (set_snippet_bindings the_bindings))).

(** [find({"owner": user_id}, ['_id'])] yields the [_id] of every stored
    collection of that owner; the order of the cursor is the store's. *)
Definition user_owned_ids (db : Db) (user_id : Z) : list ObjectId :=
  (map_to_list (filter (λ kv, cd_owner kv.2 = user_id) (workshop_collections db))).*1.




Section implementations.
Context `{SubscriberMixin} `{GuildActiveMixin}.

Definition user_subscribed (env : Env) (db : Db) (user_id : Z) : list t * option Exn :=
  yield_collections env db (my_sub_ids db user_id).

Definition server_subscribed (env : Env) (db : Db) (guild_id : Z) : list t * option Exn :=
  yield_collections env db (guild_active_ids db guild_id).

Definition subscribe (env : Env) (user_id : Z) : M (Db * t) unit :=
  subscribed ← gets (λ st, is_subscribed st.1 (id st.2) user_id);
  if (subscribed : bool) then raise (NotAllowed "You are already subscribed to this.") else
  private ← gets (λ st, bool_decide (publish_state st.2 = PRIVATE)
                          && negb (is_owner st.2 user_id));
  if (private : bool) then raise (NotAllowed "This collection is private.") else
  alias_bindings ← _generate_default_alias_bindings env;
  snippet_bindings ← _generate_default_snippet_bindings env;
  self_id ← gets (λ st, id st.2);
  on_fst (modify (insert_subscription
    (mkSubscriptionDoc (new_oid env) "subscribe" user_id self_id
       alias_bindings snippet_bindings)));;
  on_fst (modify (update_one_collection self_id (inc_num_subscribers 1)));;
  on_fst (modify (insert_event (mkAnalyticsEvent "subscribe" self_id (utcnow env)))).

Definition unsubscribe (env : Env) (user_id : Z) : M (Db * t) unit :=
  self_id ← gets (λ st, id st.2);
  on_fst (SubscriberMixin_unsubscribe self_id user_id);;
  on_fst (modify (update_one_collection self_id (inc_num_subscribers (-1))));;
  on_fst (modify (insert_event (mkAnalyticsEvent "unsubscribe" self_id (utcnow env)))).

Definition set_server_active (env : Env) (guild_id : Z) : M (Db * t) unit :=
  active ← gets (λ st, is_server_active st.1 (id st.2) guild_id);
  if (active : bool) then
    raise (NotAllowed "This collection is already installed on this server.") else
  private ← gets (λ st, bool_decide (publish_state st.2 = PRIVATE));
  if (private : bool) then raise (NotAllowed "This collection is private.") else
  alias_bindings ← _generate_default_alias_bindings env;
  snippet_bindings ← _generate_default_snippet_bindings env;
  self_id ← gets (λ st, id st.2);
  on_fst (modify (insert_subscription
    (mkSubscriptionDoc (new_oid env) "server_active" guild_id self_id
       alias_bindings snippet_bindings)));;
  on_fst (modify (update_one_collection self_id (inc_num_guild_subscribers 1)));;
  on_fst (modify (insert_event (mkAnalyticsEvent "server_subscribe" self_id (utcnow env)))).

Definition unset_server_active (env : Env) (guild_id : Z) : M (Db * t) unit :=
  self_id ← gets (λ st, id st.2);
  on_fst (GuildActiveMixin_unset_server_active self_id guild_id);;
  on_fst (modify (update_one_collection self_id (inc_num_guild_subscribers (-1))));;
  on_fst (modify (insert_event (mkAnalyticsEvent "server_unsubscribe" self_id (utcnow env)))).

End implementations.

End WorkshopCollection.

(** ** WorkshopCollectableObject.load_collection

    The method of the base class, placed after the class it loads.  The
    assignment to [self._collection] happens only when [from_id] returned;
    what is stored is the reference to the loaded collection. *)
Definition load_collection (env : Env) (db : Db)
    : M WorkshopCollectableObject.t CollectionRef :=
  c ← reads (λ self, WorkshopCollection.from_id env db
                       (Some (WorkshopCollectableObject._collection_id self)));
  modify (WorkshopCollectableObject.set_collection (Some (WorkshopCollection.ref_of c)));;
  mret (WorkshopCollection.ref_of c).

(** ** The mixins as the specification describes them *)

Definition is_join_record (type : string) (self_id : option ObjectId) (subscriber : Z)
    (d : SubscriptionDoc) : bool :=
  bool_decide (sub_type d = type) && bool_decide (subscriber_id d = subscriber)
  && bool_decide (object_id d = self_id).

Definition is_subscription_of (type : string) (subscriber : Z) (d : SubscriptionDoc) : bool :=
  bool_decide (sub_type d = type) && bool_decide (subscriber_id d = subscriber).

(** Modelled from the spec: the subscriber capability of [workshop.utils]
    ([SubscriberMixin]), which is not among the sources.  [is_subscribed]
    holds when a "subscribe" record joins the user and the object, the generic
    [unsubscribe] removes the join record, and the subscriber's active
    subscriptions are the objects of their records, in stored order. *)
#[global] Instance spec_SubscriberMixin : SubscriberMixin := {|
  is_subscribed db self_id user_id :=
    existsb (is_join_record "subscribe" self_id user_id) (workshop_subscriptions db);
  SubscriberMixin_unsubscribe self_id user_id :=
    modify (set_subscriptions
      (filter (λ d, is_join_record "subscribe" self_id user_id d = false)));
  my_sub_ids db user_id :=
    omap (λ d, if is_subscription_of "subscribe" user_id d then object_id d else None)
         (workshop_subscriptions db)
|}.

(** Modelled from the spec: the guild-active capability of [workshop.utils]
    ([GuildActiveMixin]), which is not among the sources; the same shape over
    "server_active" records. *)
#[global] Instance spec_GuildActiveMixin : GuildActiveMixin := {|
  is_server_active db self_id guild_id :=
    existsb (is_join_record "server_active" self_id guild_id) (workshop_subscriptions db);
  GuildActiveMixin_unset_server_active self_id guild_id :=
    modify (set_subscriptions
      (filter (λ d, is_join_record "server_active" self_id guild_id d = false)));
  guild_active_ids db guild_id :=
    omap (λ d, if is_subscription_of "server_active" guild_id d then object_id d else None)
         (workshop_subscriptions db)
|}.

(** What the specification says of the inherited removals, for any
    implementation of the mixins: they only touch the subscription records,
    and they remove the join record when there is one. *)
Class SubscriberMixinLaws `{SubscriberMixin} : Prop := {
  unsubscribe_frame : ∀ self_id user_id db r db',
    SubscriberMixin_unsubscribe self_id user_id db = (r, db') →
    workshop_collections db' = workshop_collections db;
  unsubscribe_joined : ∀ self_id user_id db d,
    d ∈ workshop_subscriptions db →
    is_join_record "subscribe" self_id user_id d = true →
    (SubscriberMixin_unsubscribe self_id user_id db).1 = inr tt
}.

Class GuildActiveMixinLaws `{GuildActiveMixin} : Prop := {
  unset_server_active_frame : ∀ self_id guild_id db r db',
    GuildActiveMixin_unset_server_active self_id guild_id db = (r, db') →
    workshop_collections db' = workshop_collections db;
  unset_server_active_joined : ∀ self_id guild_id db d,
    d ∈ workshop_subscriptions db →
    is_join_record "server_active" self_id guild_id d = true →
    (GuildActiveMixin_unset_server_active self_id guild_id db).1 = inr tt
}.

(** ** Vocabulary of the statements *)

(** The subscriber counter stored for a collection. *)
Definition num_subscribers (db : Db) (coll_id : ObjectId) : option Z :=
  cd_num_subscribers <$> workshop_collections db !! coll_id.

Definition num_guild_subscribers (db : Db) (coll_id : ObjectId) : option Z :=
  cd_num_guild_subscribers <$> workshop_collections db !! coll_id.

(** The name stored for a member of the class [binding_cls]. *)
Definition stored_name (binding_cls : BindingCls) (db : Db) (_id : ObjectId) : option string :=
  match binding_cls with
  | WorkshopAlias_cls => ad_name <$> workshop_aliases db !! _id
  | WorkshopSnippet_cls => sd_name <$> workshop_snippets db !! _id
  end.

(** [b] is the default binding of the stored member [_id]. *)
Definition default_binding (binding_cls : BindingCls) (db : Db) (_id : ObjectId)
    (b : Binding) : Prop :=
  b_id b = _id ∧ stored_name binding_cls db _id = Some (b_name b).




(** The identifiers of the entitlements of type [ty], in list order. *)
Definition ids_of_type (ty : string) (ents : list RequiredEntitlement) : list Z :=
  entity_id <$> filter (λ ent, entity_type ent = ty) ents.










(** [sep.join(pieces)], the inverse of [split]. *)
Fixpoint join (sep : Ascii.ascii) (pieces : list string) : string :=
  match pieces with
  | [] => EmptyString
  | piece :: pieces' =>
      match pieces' with
      | [] => piece
      | _ :: _ => piece +:+ String sep (join sep pieces')
      end
  end.

(** The characters of a string. *)
Definition chars (s : string) : list Ascii.ascii := String.list_ascii_of_string s.

(** The number of entity ids held by a grouping. *)
Definition count_ids (out : gmap string (list Z)) : nat :=
  map_fold (λ _ ids n, (length ids + n)%nat) 0%nat out.

(** ** A small store, used to run the operations on concrete inputs

    Collection 10 is published and holds aliases 1 and 2 (2 is a subcommand of
    1) and snippet 3; collection 11 is private and empty; collection 12 is
    published and lists alias 9, of which the store has no document.  All
    belong to user 7. *)
Definition ex_env : Env :=
  mkEnv 99%N 1000 2000 elements.

Definition ex_collections : gmap N CollectionDoc :=
  <[10%N := mkCollectionDoc "pack" "dice helpers" None 7 [1%N; 2%N] [3%N]
              PUBLISHED 0 0 500000 400000 ["dice"]]>
  (<[11%N := mkCollectionDoc "drafts" "" None 7 [] [] PRIVATE 0 0 600000 600000 []]>
  (<[12%N := mkCollectionDoc "relics" "" None 7 [9%N] [] PUBLISHED 0 0 700000 700000 []]> ∅)).

Definition ex_aliases : gmap N AliasDoc :=
  <[1%N := mkAliasDoc "roll" "echo roll" [] "Rolls dice." [] 10%N [2%N] None]>
  (<[2%N := mkAliasDoc "adv" "echo adv" [] "Rolls with advantage." [] 10%N []
              (Some 1%N)]> ∅).

Definition ex_snippets : gmap N SnippetDoc :=
  <[3%N := mkSnippetDoc "bless" "+1d4" [] "Adds a d4." [] 10%N]> ∅.

Definition ex_db : Db :=
  mkDb ex_collections ex_aliases ex_snippets [] [].

(** The three collections, as [from_id] builds them. *)
Definition ex_pack : WorkshopCollection.t :=
  WorkshopCollection.init (Some 10%N) "pack" "dice helpers" None 7 [1%N; 2%N] [3%N]
    PUBLISHED 0 0 500000 400000 ["dice"].

Definition ex_drafts : WorkshopCollection.t :=
  WorkshopCollection.init (Some 11%N) "drafts" "" None 7 [] [] PRIVATE 0 0 600000 600000 [].

Definition ex_relics : WorkshopCollection.t :=
  WorkshopCollection.init (Some 12%N) "relics" "" None 7 [9%N] [] PUBLISHED 0 0 700000 700000 [].

(** Alias 1 as [load_aliases] builds it for [ex_pack], and alias 2 as
    [load_subcommands] builds it for alias 1. *)
Definition ex_roll : WorkshopAlias.t :=
  WorkshopAlias.init 1%N "roll" "echo roll" [] "Rolls dice." [] 10%N [2%N] None
    (Some (WorkshopCollection.ref_of ex_pack)) None.

Definition ex_adv : WorkshopAlias.t :=
  WorkshopAlias.init 2%N "adv" "echo adv" [] "Rolls with advantage." [] 10%N []
    (Some 1%N) (Some (WorkshopCollection.ref_of ex_pack))
    (Some (WorkshopAlias.set_subcommands (Some []) ex_roll)).


(** A store in which alias 6 lists alias 7 as its subcommand while the
    document of alias 7 stores no [parent_id]; alias 6 as [load_aliases]
    builds it, and alias 7 as [load_subcommands] builds it for alias 6. *)
Definition ex_db_menu : Db :=
  mkDb ex_collections
    (<[6%N := mkAliasDoc "menu" "echo menu" [] "Shows the menu." [] 10%N [7%N] None]>
     (<[7%N := mkAliasDoc "item" "echo item" [] "Shows an item." [] 10%N [] None]>
      ex_aliases))
    ex_snippets [] [].

Definition ex_menu : WorkshopAlias.t :=
  WorkshopAlias.init 6%N "menu" "echo menu" [] "Shows the menu." [] 10%N [7%N] None
    (Some (WorkshopCollection.ref_of ex_pack)) None.

Definition ex_item : WorkshopAlias.t :=
  WorkshopAlias.init 7%N "item" "echo item" [] "Shows an item." [] 10%N [] None
    (Some (WorkshopCollection.ref_of ex_pack))
    (Some (WorkshopAlias.set_subcommands (Some []) ex_menu)).

(** A clock whose reading is not a whole number of milliseconds, and the
    smallest user identifier that does not fit in 8 bytes. *)
Definition ex_env_micro : Env :=
  mkEnv 98%N 1234567 2000 elements.

Definition ex_big_user : Z := 9223372036854775808.

(** An implementation of the subscriber interface whose removal refuses,
    with [NotAllowed], to remove a subscription that is not there; used to
    run [unsubscribe] on a removal that raises. *)
Definition strict_SubscriberMixin : SubscriberMixin := {|
  is_subscribed db self_id user_id :=
    existsb (is_join_record "subscribe" self_id user_id) (workshop_subscriptions db);
  SubscriberMixin_unsubscribe self_id user_id db :=
    if existsb (is_join_record "subscribe" self_id user_id) (workshop_subscriptions db)
    then (inr tt,
          set_subscriptions
            (filter (λ d, is_join_record "subscribe" self_id user_id d = false)) db)
    else (inl (NotAllowed "You are not subscribed to this."), db);
  my_sub_ids db user_id :=
    omap (λ d, if is_subscription_of "subscribe" user_id d then object_id d else None)
         (workshop_subscriptions db)
|}.

(** A collection that has not been inserted yet: it has no identifier. *)
Definition ex_unsaved : WorkshopCollection.t :=
  WorkshopCollection.init None "sketch" "" None 7 [] [] PUBLISHED 0 0 800 800 [].

(** User 42's subscription to collection 10, with a custom name for alias 1
    and a binding left over from a removed alias 5; and the store holding it. *)
Definition ex_sub : SubscriptionDoc :=
  mkSubscriptionDoc 50%N "subscribe" 42 (Some 10%N)
    [mkBinding "r" 1%N; mkBinding "old" 5%N] [].

Definition ex_db_subscribed : Db :=
  mkDb ex_collections ex_aliases ex_snippets [ex_sub] [].

(** * Properties *)

#[global] Arguments WorkshopCollection.is_owner : simpl never.

(** Unfolds the monadic plumbing so that a computation applied to a state
    reduces to its result. *)
Ltac run :=
  unfold mbind, M_bind, mret, M_ret, bind, ret, gets, modify, raise, lift, reads,
    on_fst, on_snd in *; simpl in *.

(** ** Construction and ownership *)

(** [create_new] for an owner the driver can encode: the instance returned
    and the store it leaves. *)
Lemma create_new_returns (env : Env) (db : Db) (user_id : Z)
    (name description : string) (image : option string) :
  bson_int user_id →
  WorkshopCollection.create_new env user_id name description image db
  = (inr (WorkshopCollection.init (Some (new_oid env)) name description image user_id
            [] [] PRIVATE 0 0 (now env) (now env) []),
     set_collections
       (λ colls, <[new_oid env :=
                     mkCollectionDoc name description image user_id [] [] PRIVATE 0 0
                       (bson_datetime (now env)) (bson_datetime (now env)) []]> colls)
       db).
Proof.
  intros Hfits.
  unfold WorkshopCollection.create_new, insert_one_collection.
  rewrite decide_True; [reflexivity|].
  split; [exact Hfits|]. unfold bson_int. simpl. lia.
Qed.

(** [create_new] for an owner the driver cannot encode. *)
Lemma create_new_raises (env : Env) (db : Db) (user_id : Z)
    (name description : string) (image : option string) :
  ¬ bson_int user_id →
  WorkshopCollection.create_new env user_id name description image db
  = (inl OverflowError, db).
Proof.
  intros Hbig.
  unfold WorkshopCollection.create_new, insert_one_collection.
  rewrite decide_False; [reflexivity|].
  by intros [Hfits _].
Qed.

(** C5, at the input where it fails: the owner identifier 2^63 does not fit
    in 8 bytes, so the insertion raises [OverflowError]; nothing is stored
    and no collection is returned. *)
Lemma create_new_owner_beyond_8_bytes :
  ¬ bson_int ex_big_user
  ∧ WorkshopCollection.create_new ex_env ex_big_user "notes" "" None ex_db
    = (inl OverflowError, ex_db)
  ∧ ¬ ∃ inst db',
        WorkshopCollection.create_new ex_env ex_big_user "notes" "" None ex_db
        = (inr inst, db').
Proof.
  assert (¬ bson_int ex_big_user) as Hbig by (unfold bson_int, ex_big_user; lia).
  split; [exact Hbig|].
  rewrite (create_new_raises _ _ _ _ _ _ Hbig).
  split; [reflexivity|]. by intros (inst & db' & ?).
Qed.

(** C5, as the code has it: for an owner identifier that fits in 8 bytes, and
    every name, description and image, [create_new] returns a collection that
    is PRIVATE, has both counters at zero and no alias or snippet
    identifiers, and carries the identifier the insertion assigned (the
    document stored under it is the collection's [to_dict] with its two dates
    cut to the millisecond); on it [is_owner] is true of the creating user and
    false of every other.  For an owner identifier that does not fit,
    [create_new] raises [OverflowError] and leaves the store as it was. *)
Theorem create_new_private_empty_owned (env : Env) (db : Db) (user_id : Z)
    (name description : string) (image : option string) :
  (bson_int user_id →
   ∃ inst db',
     WorkshopCollection.create_new env user_id name description image db = (inr inst, db')
     ∧ WorkshopCollection.publish_state inst = PRIVATE
     ∧ WorkshopCollection.approx_num_subscribers inst = 0
     ∧ WorkshopCollection.approx_num_guild_subscribers inst = 0
     ∧ WorkshopCollection._alias_ids inst = []
     ∧ WorkshopCollection._snippet_ids inst = []
     ∧ WorkshopCollection.id inst = Some (new_oid env)
     ∧ workshop_collections db' !! new_oid env
       = Some (bson_collection (WorkshopCollection.to_dict inst))
     ∧ WorkshopCollection.is_owner inst user_id = true
     ∧ ∀ u, u ≠ user_id → WorkshopCollection.is_owner inst u = false)
  ∧ (¬ bson_int user_id →
     WorkshopCollection.create_new env user_id name description image db
     = (inl OverflowError, db)).
Proof.
  split; [|apply create_new_raises].
  intros Hfits. eexists _, _. split; [by apply create_new_returns|].
  repeat split; simpl.
  - apply lookup_insert_eq.
  - unfold WorkshopCollection.is_owner. simpl. by apply bool_decide_eq_true.
  - intros u Hu. unfold WorkshopCollection.is_owner. simpl.
    by apply bool_decide_eq_false.
Qed.

Lemma create_new_private_empty_owned_witness :
  (∃ inst db',
     WorkshopCollection.create_new ex_env_micro 7 "notes" "" None ex_db = (inr inst, db')
     ∧ WorkshopCollection.publish_state inst = PRIVATE
     ∧ WorkshopCollection.approx_num_subscribers inst = 0
     ∧ WorkshopCollection.approx_num_guild_subscribers inst = 0
     ∧ WorkshopCollection._alias_ids inst = []
     ∧ WorkshopCollection._snippet_ids inst = []
     ∧ WorkshopCollection.id inst = Some (new_oid ex_env_micro)
     ∧ workshop_collections db' !! new_oid ex_env_micro
       = Some (bson_collection (WorkshopCollection.to_dict inst))
     ∧ WorkshopCollection.is_owner inst 7 = true
     ∧ ∀ u, u ≠ 7 → WorkshopCollection.is_owner inst u = false)
  ∧ WorkshopCollection.create_new ex_env ex_big_user "notes" "" None ex_db
    = (inl OverflowError, ex_db).
Proof.
  split.
  - apply (proj1 (create_new_private_empty_owned ex_env_micro ex_db 7 "notes" "" None)).
    unfold bson_int. lia.
  - apply (proj2 (create_new_private_empty_owned ex_env ex_db ex_big_user "notes" "" None)).
    unfold bson_int, ex_big_user. lia.
Defined.

(** The store keeps the time of creation to the millisecond: created at
    1.234567 s, the collection is stored with 1.234 s. *)
Example create_new_run :
  workshop_collections
    (WorkshopCollection.create_new ex_env_micro 7 "notes" "" None ex_db).2 !! 98%N
  = Some (mkCollectionDoc "notes" "" None 7 [] [] PRIVATE 0 0 1234000 1234000 []).
Proof. reflexivity. Qed.

(** ** Entitlements *)

Lemma get_entitlements_fold (ty : string) (ents : list RequiredEntitlement)
    (out : gmap string (list Z)) :
  foldl (λ out ent,
           <[entity_type ent :=
               default [] (out !! entity_type ent) ++ [entity_id ent]]> out)
        out ents !! ty
  = match ids_of_type ty ents with
    | [] => out !! ty
    | ids => Some (default [] (out !! ty) ++ ids)
    end.
Proof.
  revert out. induction ents as [|ent ents IH]; intros out; [done|].
  simpl. rewrite IH. unfold ids_of_type. rewrite filter_cons.
  destruct (decide (entity_type ent = ty)) as [->|Hne].
  - rewrite lookup_insert_eq, fmap_cons.
    change (entity_id <$> filter _ ents) with (ids_of_type ty ents).
    destruct (ids_of_type ty ents); simpl; [done|].
    by rewrite <- app_assoc.
  - by rewrite lookup_insert_ne.
Qed.

(** C6: [get_entitlements] maps each entity type to the entity ids of the
    entitlements of that type, in the order of the entitlement list; a type
    with no entitlement is not a key of the result (it is not mapped to the
    empty list). *)
Theorem get_entitlements_grouped (self : WorkshopCollectableObject.t) (ty : string) :
  WorkshopCollectableObject.get_entitlements self !! ty
  = (if decide (ids_of_type ty (WorkshopCollectableObject.entitlements self) = [])
     then None
     else Some (ids_of_type ty (WorkshopCollectableObject.entitlements self)))
  ∧ WorkshopCollectableObject.get_entitlements self !! ty ≠ Some [].
Proof.
  unfold WorkshopCollectableObject.get_entitlements.
  rewrite get_entitlements_fold, lookup_empty.
  destruct (ids_of_type ty _) as [|z ids]; simpl; by split.
Qed.

(** ** Subscribed collections *)

Lemma from_id_Some (env : Env) (db : Db) (coll_id : ObjectId) (c : WorkshopCollection.t) :
  WorkshopCollection.from_id env db (Some coll_id) = inr c →
  WorkshopCollection.id c = Some coll_id ∧ is_Some (workshop_collections db !! coll_id).
Proof.
  unfold WorkshopCollection.from_id. simpl.
  destruct (workshop_collections db !! coll_id); [|done].
  intros [= <-]. by split.
Qed.

Lemma from_id_missing (env : Env) (db : Db) (coll_id : ObjectId) (e : Exn) :
  WorkshopCollection.from_id env db (Some coll_id) = inl e →
  e = CollectionNotFound ∧ workshop_collections db !! coll_id = None.
Proof.
  unfold WorkshopCollection.from_id. simpl.
  destruct (workshop_collections db !! coll_id); [done|].
  intros [= <-]. by split.
Qed.

Lemma yield_collections_resolvable (env : Env) (db : Db) (coll_ids : list ObjectId) :
  ∃ ys, WorkshopCollection.yield_collections env db coll_ids = (ys, None)
    ∧ WorkshopCollection.id <$> ys
      = Some <$> filter (λ i, is_Some (workshop_collections db !! i)) coll_ids
    ∧ Forall (λ c, WorkshopCollection.from_id env db (WorkshopCollection.id c) = inr c) ys.
Proof.
  induction coll_ids as [|i ids (ys & Hrun & Hids & Hall)]; [by exists []|].
  simpl. rewrite Hrun, filter_cons.
  destruct (WorkshopCollection.from_id env db (Some i)) as [e|c] eqn:Hi.
  - apply from_id_missing in Hi as [-> Hnone].
    exists ys. rewrite decide_False; [done|]. rewrite Hnone. by intros [? ?].
  - pose proof Hi as [Hid Hsome]%from_id_Some.
    exists (c :: ys). rewrite decide_True by done.
    split_and!; [done|by rewrite !fmap_cons, Hid, Hids|].
    constructor; [by rewrite Hid|done].
Qed.

(** C7: for every user and every guild, [user_subscribed] and
    [server_subscribed] yield, in the order of the subscriber's subscription
    ids, exactly the collections whose id resolves to a stored document; an
    id without document is skipped and no exception reaches the caller. *)
Theorem subscribed_yields_resolvable `{SubscriberMixin} `{GuildActiveMixin}
    (env : Env) (db : Db) (user_id guild_id : Z) :
  (∃ ys, WorkshopCollection.user_subscribed env db user_id = (ys, None)
     ∧ WorkshopCollection.id <$> ys
       = Some <$> filter (λ i, is_Some (workshop_collections db !! i))
                         (my_sub_ids db user_id)
     ∧ Forall (λ c, WorkshopCollection.from_id env db (WorkshopCollection.id c) = inr c) ys)
  ∧ (∃ ys, WorkshopCollection.server_subscribed env db guild_id = (ys, None)
     ∧ WorkshopCollection.id <$> ys
       = Some <$> filter (λ i, is_Some (workshop_collections db !! i))
                         (guild_active_ids db guild_id)
     ∧ Forall (λ c, WorkshopCollection.from_id env db (WorkshopCollection.id c) = inr c) ys).
Proof.
  split; apply yield_collections_resolvable.
Qed.

(** ** Lazy relationships *)

(** C9, at the input where it fails: the document of alias 7 stores no parent
    identifier, so alias 7 is a root alias, and [load_parent] on it raises
    [CollectableNotFound]; but [load_subcommands] of alias 6 has built it
    with alias 6 as its parent, and its [parent] accessor returns that parent
    instead of raising the "not loaded" error. *)
Lemma load_parent_root_with_parent :
  (WorkshopAlias.load_subcommands ex_env ex_db_menu ex_menu).1 = inr [ex_item]
  ∧ WorkshopAlias._parent_id ex_item = None
  ∧ WorkshopAlias.load_parent ex_env ex_db_menu ex_item = (inl CollectableNotFound, ex_item)
  ∧ WorkshopAlias.parent (WorkshopAlias.load_parent ex_env ex_db_menu ex_item).2
    = inr (WorkshopAlias.set_subcommands (Some []) ex_menu)
  ∧ ¬ ∃ msg, WorkshopAlias.parent (WorkshopAlias.load_parent ex_env ex_db_menu ex_item).2
             = inl (AttributeError msg).
Proof.
  split_and!; try reflexivity. by intros [msg ?].
Qed.

(** C9, as the code has it: for every root alias (stored parent identifier
    [None]) [load_parent] looks up a newly generated identifier, which no
    stored alias has, and raises [CollectableNotFound], leaving the alias as
    it was.  For an alias that holds no parent (none given to the
    constructor), the [parent] accessor then raises the same "not loaded"
    error as that of any other alias that holds no parent, whatever that
    alias's parent identifier; for an alias that was given a parent, the
    accessor returns that parent, after the failed [load_parent] as before. *)
Theorem load_parent_root_not_found (env : Env) (db : Db) (self : WorkshopAlias.t) :
  WorkshopAlias._parent_id self = None →
  workshop_aliases db !! new_oid env = None →
  WorkshopAlias.load_parent env db self = (inl CollectableNotFound, self)
  ∧ (WorkshopAlias._parent self = None →
     WorkshopAlias.parent (WorkshopAlias.load_parent env db self).2
     = inl (AttributeError "Parent is not loaded yet - run load_parent() first")
     ∧ ∀ other, WorkshopAlias._parent other = None →
         WorkshopAlias.parent (WorkshopAlias.load_parent env db self).2
         = WorkshopAlias.parent other)
  ∧ (∀ p, WorkshopAlias._parent self = Some p →
       WorkshopAlias.parent self = inr p
       ∧ WorkshopAlias.parent (WorkshopAlias.load_parent env db self).2 = inr p).
Proof.
  intros Hroot Hfresh.
  assert (WorkshopAlias.load_parent env db self = (inl CollectableNotFound, self)) as ->.
  { unfold WorkshopAlias.load_parent, WorkshopAlias.from_id. run.
    by rewrite Hroot; simpl; rewrite Hfresh. }
  unfold WorkshopAlias.parent. simpl. split_and!; [done| |].
  - intros Hself. rewrite Hself. split; [done|]. by intros other ->.
  - by intros p ->.
Qed.

Lemma load_parent_root_not_found_witness :
  (WorkshopAlias.load_parent ex_env ex_db ex_roll = (inl CollectableNotFound, ex_roll)
   ∧ WorkshopAlias.parent (WorkshopAlias.load_parent ex_env ex_db ex_roll).2
     = inl (AttributeError "Parent is not loaded yet - run load_parent() first")
   ∧ WorkshopAlias.parent (WorkshopAlias.load_parent ex_env ex_db ex_roll).2
     = WorkshopAlias.parent
         (WorkshopAlias.from_dict 2%N
            (mkAliasDoc "adv" "echo adv" [] "Rolls with advantage." [] 10%N [] (Some 1%N))
            None None))
  ∧ (WorkshopAlias.load_parent ex_env ex_db_menu ex_item = (inl CollectableNotFound, ex_item)
     ∧ WorkshopAlias.parent (WorkshopAlias.load_parent ex_env ex_db_menu ex_item).2
       = inr (WorkshopAlias.set_subcommands (Some []) ex_menu)).
Proof.
  destruct (load_parent_root_not_found ex_env ex_db ex_roll eq_refl eq_refl)
    as (Hraise & Hnone & _).
  destruct (load_parent_root_not_found ex_env ex_db_menu ex_item eq_refl eq_refl)
    as (Hraise' & _ & Hsome).
  split_and!.
  - exact Hraise.
  - exact (proj1 (Hnone eq_refl)).
  - apply (proj2 (Hnone eq_refl)). reflexivity.
  - exact Hraise'.
  - exact (proj2 (Hsome _ eq_refl)).
Defined.

Lemma load_members_all {A} (fetch : ObjectId → Exn + A) (ids : list ObjectId) (acc : list A) :
  Forall (λ i, ∃ a, fetch i = inr a) ids →
  ∃ objs, load_members fetch ids acc = (inr tt, acc ++ objs)
    ∧ Forall2 (λ i a, fetch i = inr a) ids objs.
Proof.
  intros Hall. revert acc.
  induction Hall as [|i ids [a Ha] _ IH]; intros acc.
  - exists []. by rewrite app_nil_r.
  - destruct (IH (acc ++ [a])) as (objs & Hrun & Hobjs).
    exists (a :: objs). simpl. rewrite Ha, Hrun, <- app_assoc.
    split; [done|by constructor].
Qed.



Lemma load_aliases_cached (env : Env) (db : Db) (self self' : WorkshopCollection.t)
    (l : list WorkshopAlias.t) :
  WorkshopCollection.load_aliases env db self = (inr l, self') →
  WorkshopCollection.aliases self' = inr l.
Proof.
  unfold WorkshopCollection.load_aliases.
  destruct (load_members _ _ _) as [[e|[]] cache]; [done|].
  by intros [= <- <-].
Qed.

Lemma load_snippets_cached (env : Env) (db : Db) (self self' : WorkshopCollection.t)
    (l : list WorkshopSnippet.t) :
  WorkshopCollection.load_snippets env db self = (inr l, self') →
  WorkshopCollection.snippets self' = inr l.
Proof.
  unfold WorkshopCollection.load_snippets.
  destruct (load_members _ _ _) as [[e|[]] cache]; [done|].
  by intros [= <- <-].
Qed.

(** C8, at the input where it fails: alias 1 as [load_aliases] constructs it
    for its collection, and alias 2 as [load_subcommands] constructs it for
    alias 1, hand back their collection and their parent although neither
    [load_collection] nor [load_parent] has run. *)
Lemma accessors_of_preloaded_members :
  (∃ rest, (WorkshopCollection.load_aliases ex_env ex_db ex_pack).1 = inr (ex_roll :: rest))
  ∧ WorkshopAlias.collection ex_roll = inr (WorkshopCollection.ref_of ex_pack)
  ∧ (¬ ∃ msg, WorkshopAlias.collection ex_roll = inl (AttributeError msg))
  ∧ (WorkshopAlias.load_subcommands ex_env ex_db ex_roll).1 = inr [ex_adv]
  ∧ WorkshopAlias.parent ex_adv = inr (WorkshopAlias.set_subcommands (Some []) ex_roll)
  ∧ (¬ ∃ msg, WorkshopAlias.parent ex_adv = inl (AttributeError msg)).
Proof.
  split_and!; try reflexivity.
  - eexists. reflexivity.
  - by intros [msg ?].
  - by intros [msg ?].
Qed.

(** C8, as the code has it: on every newly constructed collection the
    [aliases] and [snippets] accessors raise the "not loaded" error, and so
    does [subcommands] on every newly constructed alias; the [collection] and
    [parent] accessors raise it exactly when the constructor was given no
    collection or parent, and hand back the one it was given otherwise.  When
    [load_aliases] or [load_snippets] returns a list, the accessor returns
    that list afterwards, whatever the cache held before; and the load does
    return when every member identifier resolves. *)
Theorem lazy_accessors_guarded :
  (∀ _id name description image owner alias_ids snippet_ids publish_state
     num_subscribers num_guild_subscribers last_edited created_at tags,
     let c := WorkshopCollection.init _id name description image owner alias_ids
                snippet_ids publish_state num_subscribers num_guild_subscribers
                last_edited created_at tags in
     WorkshopCollection.aliases c
       = inl (AttributeError "Aliases are not loaded yet - run load_aliases() first")
     ∧ WorkshopCollection.snippets c
       = inl (AttributeError "Snippets are not loaded yet - run load_snippets() first"))
  ∧ (∀ _id name code versions docs entitlements collection_id subcommand_ids parent_id
       collection parent,
     let a := WorkshopAlias.init _id name code versions docs entitlements collection_id
                subcommand_ids parent_id collection parent in
     WorkshopAlias.subcommands a
       = inl (AttributeError "Subcommands are not loaded yet - run load_subcommands() first")
     ∧ WorkshopAlias.collection a
       = match collection with
         | None => inl (AttributeError "Collection is not loaded - run load_collection() first")
         | Some c => inr c
         end
     ∧ WorkshopAlias.parent a
       = match parent with
         | None => inl (AttributeError "Parent is not loaded yet - run load_parent() first")
         | Some p => inr p
         end)
  ∧ (∀ _id name code versions docs entitlements collection_id collection,
     WorkshopCollectableObject.collection
       (WorkshopCollectableObject.mk _id name code versions docs entitlements
          collection collection_id)
     = match collection with
       | None => inl (AttributeError "Collection is not loaded - run load_collection() first")
       | Some c => inr c
       end)
  ∧ (∀ env db self,
     (∀ l self', WorkshopCollection.load_aliases env db self = (inr l, self') →
                 WorkshopCollection.aliases self' = inr l)
     ∧ (∀ l self', WorkshopCollection.load_snippets env db self = (inr l, self') →
                   WorkshopCollection.snippets self' = inr l)
     ∧ (Forall (λ i, is_Some (workshop_aliases db !! i)) (WorkshopCollection._alias_ids self) →
        ∃ l, (WorkshopCollection.load_aliases env db self).1 = inr l)
     ∧ (Forall (λ i, is_Some (workshop_snippets db !! i)) (WorkshopCollection._snippet_ids self) →
        ∃ l, (WorkshopCollection.load_snippets env db self).1 = inr l)).
Proof.
  split_and!.
  - done.
  - intros. subst a. split_and!; [done|by destruct collection|by destruct parent].
  - intros. by destruct collection.
  - intros env db self. split_and!.
    + intros l self'. apply load_aliases_cached.
    + intros l self'. apply load_snippets_cached.
    + intros Hall. unfold WorkshopCollection.load_aliases.
      edestruct (load_members_all
        (λ alias_id, WorkshopAlias.from_id env db (Some alias_id)
                       (Some (WorkshopCollection.ref_of self)) None)
        (WorkshopCollection._alias_ids self) []) as (objs & -> & _); [|by eexists].
      eapply Forall_impl; [exact Hall|]. intros i [raw Hraw].
      unfold WorkshopAlias.from_id. simpl. rewrite Hraw. by eexists.
    + intros Hall. unfold WorkshopCollection.load_snippets.
      edestruct (load_members_all
        (λ snippet_id, WorkshopSnippet.from_id env db (Some snippet_id)
                         (Some (WorkshopCollection.ref_of self)))
        (WorkshopCollection._snippet_ids self) []) as (objs & -> & _); [|by eexists].
      eapply Forall_impl; [exact Hall|]. intros i [raw Hraw].
      unfold WorkshopSnippet.from_id. simpl. rewrite Hraw. by eexists.
Qed.

(** The cache of [ex_pack] holds a stale, empty list before the load and the
    two stored aliases after it. *)
Lemma lazy_accessors_guarded_witness :
  let stale := WorkshopCollection.set_aliases (Some []) ex_pack in
  WorkshopCollection.aliases stale = inr []
  ∧ ∃ l, length l = 2%nat
      ∧ WorkshopCollection.aliases (WorkshopCollection.load_aliases ex_env ex_db stale).2
        = inr l.
Proof.
  split; [reflexivity|].
  destruct (proj2 (proj2 (proj2 lazy_accessors_guarded)) ex_env ex_db
              (WorkshopCollection.set_aliases (Some []) ex_pack)) as [Hload _].
  eexists. split; [|eapply Hload; reflexivity].
  reflexivity.
Defined.

(** ** Binding reconciliation *)

Lemma BindingCls_from_id_stored (binding_cls : BindingCls) (env : Env) (db : Db)
    (_id : ObjectId) (collection : option CollectionRef) :
  BindingCls_from_id binding_cls env db (Some _id) collection
  = match stored_name binding_cls db _id with
    | Some n => inr (n, _id)
    | None => inl CollectableNotFound
    end.
Proof.
  destruct binding_cls; simpl.
  - unfold WorkshopAlias.from_id. simpl.
    by destruct (workshop_aliases db !! _id).
  - unfold WorkshopSnippet.from_id. simpl.
    by destruct (workshop_snippets db !! _id).
Qed.

(** The loop over the missing identifiers appends one default binding per
    identifier, in the order of the iteration. *)
Lemma append_defaults (binding_cls : BindingCls) (env : Env) (db : Db)
    (collection : option CollectionRef) (missing_ids : list ObjectId)
    (the_bindings : list Binding) :
  Forall (λ i, is_Some (stored_name binding_cls db i)) missing_ids →
  ∃ defaults,
    for_each missing_ids (λ missing,
      obj ← lift (BindingCls_from_id binding_cls env db (Some missing) collection);
      modify (λ the_bindings, the_bindings ++ [mkBinding obj.1 obj.2])) the_bindings
    = (inr tt, the_bindings ++ defaults)
    ∧ Forall2 (default_binding binding_cls db) missing_ids defaults.
Proof.
  intros Hall. revert the_bindings.
  induction Hall as [|i ids [n Hn] _ IH]; intros the_bindings.
  - exists []. by rewrite app_nil_r.
  - destruct (IH (the_bindings ++ [mkBinding n i])) as (defaults & Hrun & Hdef).
    exists (mkBinding n i :: defaults). split; [|by constructor].
    simpl. run. rewrite BindingCls_from_id_stored, Hn. simpl.
    run. by rewrite Hrun, <- app_assoc.
Qed.

Lemma default_binding_ids (binding_cls : BindingCls) (db : Db)
    (ids : list ObjectId) (defaults : list Binding) :
  Forall2 (default_binding binding_cls db) ids defaults → b_id <$> defaults = ids.
Proof.
  induction 1 as [|i b ids defaults [Hid _] _ IH]; [done|].
  by rewrite fmap_cons, Hid, IH.
Qed.

Lemma filter_all {A} (P : A → Prop) `{∀ x, Decision (P x)} (l : list A) :
  Forall P l → filter P l = l.
Proof.
  induction 1 as [|x l Hx _ IH]; [done|].
  by rewrite filter_cons_True, IH.
Qed.

(** The loop stops with [CollectableNotFound] at the first missing
    identifier that has no stored object. *)
Lemma append_defaults_missing (binding_cls : BindingCls) (env : Env) (db : Db)
    (collection : option CollectionRef) (missing_ids : list ObjectId)
    (the_bindings : list Binding) :
  Exists (λ i, stored_name binding_cls db i = None) missing_ids →
  ∃ the_bindings',
    for_each missing_ids (λ missing,
      obj ← lift (BindingCls_from_id binding_cls env db (Some missing) collection);
      modify (λ the_bindings, the_bindings ++ [mkBinding obj.1 obj.2])) the_bindings
    = (inl CollectableNotFound, the_bindings').
Proof.
  revert the_bindings.
  induction missing_ids as [|i ids IH]; intros the_bindings Hex; [by inversion Hex|].
  simpl. run. rewrite BindingCls_from_id_stored.
  destruct (stored_name binding_cls db i) as [n|] eqn:Hn; simpl; [|by eexists].
  run. apply IH. inversion Hex; simplify_eq. done.
Qed.

(** C1, at the input where it fails: alias 9 is a member without binding
    and without stored object; the reconciliation raises and returns no list. *)
Lemma bindings_sanity_check_unresolved_member :
  (WorkshopCollection._bindings_sanity_check ex_env ex_db ex_relics [9%N]
     WorkshopAlias_cls []).1 = inl CollectableNotFound
  ∧ ¬ ∃ l, (WorkshopCollection._bindings_sanity_check ex_env ex_db ex_relics [9%N]
              WorkshopAlias_cls []).1 = inr l.
Proof.
  split; [reflexivity|]. by intros [l ?].
Qed.

(** C1, as the code has it: for every list of member identifiers and every
    stored binding list, when the members without binding resolve to stored
    objects, the reconciliation returns the stored bindings whose id is a
    member, with their names and in their order, followed by one default
    binding, under the object's stored name, for each member that had no
    binding; bindings whose id is not a member are gone.  When a member
    without binding has no stored object, it raises [CollectableNotFound]. *)
Theorem bindings_sanity_check_reconciles (env : Env) (db : Db) (self : WorkshopCollection.t)
    (the_ids : list ObjectId) (the_bindings : list Binding) (binding_cls : BindingCls) :
  iter_set_ok env →
  ((∀ i, i ∈ the_ids → i ∉ b_id <$> the_bindings → is_Some (stored_name binding_cls db i)) →
   ∃ defaults,
     (WorkshopCollection._bindings_sanity_check env db self the_ids binding_cls
        the_bindings).1
     = inr (filter (λ b, b_id b ∈ the_ids) the_bindings ++ defaults)
     ∧ NoDup (b_id <$> defaults)
     ∧ ∀ b, b ∈ defaults ↔
            (b_id b ∈ the_ids ∧ (b_id b ∉ b_id <$> the_bindings)
             ∧ stored_name binding_cls db (b_id b) = Some (b_name b)))
  ∧ ((∃ i, i ∈ the_ids ∧ (i ∉ b_id <$> the_bindings) ∧ stored_name binding_cls db i = None) →
     (WorkshopCollection._bindings_sanity_check env db self the_ids binding_cls
        the_bindings).1
     = inl CollectableNotFound).
Proof.
  intros Hiter.
  set (missing := (list_to_set the_ids : gset N) ∖ list_to_set (b_id <$> the_bindings)).
  assert (Hmiss : ∀ i, i ∈ iter_set env missing ↔ i ∈ the_ids ∧ i ∉ b_id <$> the_bindings).
  { intros i. rewrite (Hiter missing), elem_of_elements. unfold missing.
    rewrite elem_of_difference, !elem_of_list_to_set. done. }
  split.
  - intros Hres.
    destruct (append_defaults binding_cls env db (Some (WorkshopCollection.ref_of self))
                (iter_set env missing) the_bindings) as (defaults & Hrun & Hdef).
    { apply Forall_forall. intros i [? ?]%Hmiss. by apply Hres. }
    pose proof (default_binding_ids _ _ _ _ Hdef) as Hids.
    exists defaults. split_and!.
    + unfold WorkshopCollection._bindings_sanity_check. run. fold missing.
      rewrite Hrun. simpl. rewrite filter_app. f_equal. f_equal.
      apply filter_all, Forall_forall. intros b Hb.
      assert (b_id b ∈ iter_set env missing) as [? _]%Hmiss; [|done].
      rewrite <- Hids. by apply list_elem_of_fmap_2.
    + rewrite Hids, (Hiter missing). apply NoDup_elements.
    + intros b. split.
      * intros Hb. apply list_elem_of_lookup in Hb as [k Hk].
        destruct (Forall2_lookup_r _ _ _ _ _ Hdef Hk) as (i & Hi & Hid & Hname).
        apply list_elem_of_lookup_2, Hmiss in Hi as [? ?]. by rewrite Hid.
      * intros (Hin & Hnot & Hname).
        assert (b_id b ∈ iter_set env missing) as Hb by by apply Hmiss.
        apply list_elem_of_lookup in Hb as [k Hk].
        destruct (Forall2_lookup_l _ _ _ _ _ Hdef Hk) as (b' & Hb' & Hid & Hname').
        rewrite Hname in Hname'. injection Hname' as Hname'.
        destruct b, b'; simpl in *; subst. by eapply list_elem_of_lookup_2.
  - intros (i & Hin & Hnot & Hnone).
    destruct (append_defaults_missing binding_cls env db
                (Some (WorkshopCollection.ref_of self)) (iter_set env missing) the_bindings)
      as (the_bindings' & Hrun).
    { apply Exists_exists. exists i. split; [by apply Hmiss|done]. }
    unfold WorkshopCollection._bindings_sanity_check. run. fold missing.
    by rewrite Hrun.
Qed.

Lemma bindings_sanity_check_reconciles_witness :
  (∃ defaults,
     (WorkshopCollection._bindings_sanity_check ex_env ex_db ex_pack [1%N; 2%N]
        WorkshopAlias_cls [mkBinding "r" 1%N; mkBinding "old" 5%N]).1
     = inr (filter (λ b, b_id b ∈ [1%N; 2%N]) [mkBinding "r" 1%N; mkBinding "old" 5%N]
            ++ defaults)
     ∧ NoDup (b_id <$> defaults)
     ∧ ∀ b, b ∈ defaults ↔
            (b_id b ∈ [1%N; 2%N]
             ∧ (b_id b ∉ b_id <$> [mkBinding "r" 1%N; mkBinding "old" 5%N])
             ∧ stored_name WorkshopAlias_cls ex_db (b_id b) = Some (b_name b)))
  ∧ (WorkshopCollection._bindings_sanity_check ex_env ex_db ex_relics [1%N; 9%N]
       WorkshopAlias_cls [mkBinding "r" 1%N]).1
    = inl CollectableNotFound.
Proof.
  split.
  - apply (proj1 (bindings_sanity_check_reconciles ex_env ex_db ex_pack [1%N; 2%N]
                    [mkBinding "r" 1%N; mkBinding "old" 5%N] WorkshopAlias_cls
                    (λ s, reflexivity _))).
    intros i Hi _.
    repeat (apply elem_of_cons in Hi as [->|Hi]; [vm_compute; eauto|]).
    by apply elem_of_nil in Hi.
  - apply (proj2 (bindings_sanity_check_reconciles ex_env ex_db ex_relics [1%N; 9%N]
                    [mkBinding "r" 1%N] WorkshopAlias_cls (λ s, reflexivity _))).
    exists 9%N. split_and!; [|apply (bool_decide_unpack _); reflexivity|reflexivity].
    apply elem_of_cons. right. apply elem_of_cons. by left.
Defined.

(** On that input the reconciliation keeps the custom name of alias 1, drops
    the binding of the removed alias 5 and adds alias 2 under its stored name. *)
Example bindings_sanity_check_run :
  (WorkshopCollection._bindings_sanity_check ex_env ex_db ex_pack [1%N; 2%N]
     WorkshopAlias_cls [mkBinding "r" 1%N; mkBinding "old" 5%N]).1
  = inr [mkBinding "r" 1%N; mkBinding "adv" 2%N].
Proof. reflexivity. Qed.

(** [update_alias_bindings] reconciles the alias identifiers of the
    collection with the [alias_bindings] of the subscription document and
    stores the result in the subscription of that [_id]. *)
Lemma update_alias_bindings_stores (env : Env) (db : Db) (self : WorkshopCollection.t)
    (subscription_doc : SubscriptionDoc) (the_bindings : list Binding) :
  (WorkshopCollection._bindings_sanity_check env db self
     (WorkshopCollection._alias_ids self) WorkshopAlias_cls
     (alias_bindings subscription_doc)).1 = inr the_bindings →
  WorkshopCollection.update_alias_bindings env self subscription_doc db
  = (inr tt,
     set_subscriptions
       (update_one_subscription (sub__id subscription_doc) (set_alias_bindings the_bindings))
       db).
Proof.
  intros Hcheck. unfold WorkshopCollection.update_alias_bindings. run.
  by rewrite Hcheck.
Qed.

(** ** Default bindings *)

Lemma set_aliases_same (self : WorkshopCollection.t) (l : list WorkshopAlias.t) :
  WorkshopCollection._aliases self = Some l →
  WorkshopCollection.set_aliases (Some l) self = self.
Proof. destruct self; simpl; by intros ->. Qed.

Lemma set_snippets_same (self : WorkshopCollection.t) (l : list WorkshopSnippet.t) :
  WorkshopCollection._snippets self = Some l →
  WorkshopCollection.set_snippets (Some l) self = self.
Proof. destruct self; simpl; by intros ->. Qed.







(** ** Counters *)




Lemma generate_default_alias_bindings_frame (env : Env) (db db' : Db)
    (self self' : WorkshopCollection.t) (r : Exn + list Binding) :
  WorkshopCollection._generate_default_alias_bindings env (db, self) = (r, (db', self')) →
  db' = db ∧ ∃ v, self' = WorkshopCollection.set_aliases v self.
Proof.
  unfold WorkshopCollection._generate_default_alias_bindings. run.
  destruct (WorkshopCollection._aliases self) as [l|] eqn:Hcache.
  - intros [= <- <- <-]. split; [done|]. exists (Some l). by rewrite set_aliases_same.
  - unfold WorkshopCollection.load_aliases.
    destruct (load_members _ _ _) as [[e|[]] cache]; intros [= <- <- <-]; eauto.
Qed.

Lemma generate_default_snippet_bindings_frame (env : Env) (db db' : Db)
    (self self' : WorkshopCollection.t) (r : Exn + list Binding) :
  WorkshopCollection._generate_default_snippet_bindings env (db, self) = (r, (db', self')) →
  db' = db ∧ ∃ v, self' = WorkshopCollection.set_snippets v self.
Proof.
  unfold WorkshopCollection._generate_default_snippet_bindings. run.
  destruct (WorkshopCollection._snippets self) as [l|] eqn:Hcache.
  - intros [= <- <- <-]. split; [done|]. exists (Some l). by rewrite set_snippets_same.
  - unfold WorkshopCollection.load_snippets.
    destruct (load_members _ _ _) as [[e|[]] cache]; intros [= <- <- <-]; eauto.
Qed.






(** ** Subscribing *)








(** ** Activating on a guild *)







(** ** The round trip of the counters *)

#[global] Instance spec_SubscriberMixinLaws : SubscriberMixinLaws.
Proof.
  split.
  - intros self_id user_id db r db'. simpl. run. by intros [= <- <-].
  - done.
Qed.

#[global] Instance spec_GuildActiveMixinLaws : GuildActiveMixinLaws.
Proof.
  split.
  - intros self_id guild_id db r db'. simpl. run. by intros [= <- <-].
  - done.
Qed.

(** [subscribe] either raises and leaves the store as it was, or returns
    after its three writes. *)
Lemma subscribe_cases `{SubscriberMixin} (env : Env) (db : Db)
    (self : WorkshopCollection.t) (user_id : Z) :
  (∃ e self', WorkshopCollection.subscribe env user_id (db, self) = (inl e, (db, self')))
  ∨ (∃ ab sb self',
       WorkshopCollection.subscribe env user_id (db, self)
       = (inr tt,
          (insert_event
             (mkAnalyticsEvent "subscribe" (WorkshopCollection.id self) (utcnow env))
             (update_one_collection (WorkshopCollection.id self) (inc_num_subscribers 1)
                (insert_subscription
                   (mkSubscriptionDoc (new_oid env) "subscribe" user_id
                      (WorkshopCollection.id self) ab sb) db)),
           self'))
       ∧ WorkshopCollection.id self' = WorkshopCollection.id self).
Proof.
  unfold WorkshopCollection.subscribe. run.
  destruct (is_subscribed _ _ _); simpl; [left; eauto|].
  destruct (_ && _); simpl; [left; eauto|].
  destruct (WorkshopCollection._generate_default_alias_bindings env (db, self))
    as [[e|ab] [db1 self1]] eqn:Ha;
    apply generate_default_alias_bindings_frame in Ha as [-> [v1 Hself1]]; [left; eauto|].
  destruct (WorkshopCollection._generate_default_snippet_bindings env (db, self1))
    as [[e|sb] [db2 self2]] eqn:Hs;
    apply generate_default_snippet_bindings_frame in Hs as [-> [v2 Hself2]]; [left; eauto|].
  right. exists ab, sb, self2. subst self2 self1. done.
Qed.

Lemma set_server_active_cases `{GuildActiveMixin} (env : Env) (db : Db)
    (self : WorkshopCollection.t) (guild_id : Z) :
  (∃ e self', WorkshopCollection.set_server_active env guild_id (db, self)
              = (inl e, (db, self')))
  ∨ (∃ ab sb self',
       WorkshopCollection.set_server_active env guild_id (db, self)
       = (inr tt,
          (insert_event
             (mkAnalyticsEvent "server_subscribe" (WorkshopCollection.id self) (utcnow env))
             (update_one_collection (WorkshopCollection.id self)
                (inc_num_guild_subscribers 1)
                (insert_subscription
                   (mkSubscriptionDoc (new_oid env) "server_active" guild_id
                      (WorkshopCollection.id self) ab sb) db)),
           self'))
       ∧ WorkshopCollection.id self' = WorkshopCollection.id self).
Proof.
  unfold WorkshopCollection.set_server_active. run.
  destruct (is_server_active _ _ _); simpl; [left; eauto|].
  destruct (bool_decide _); simpl; [left; eauto|].
  destruct (WorkshopCollection._generate_default_alias_bindings env (db, self))
    as [[e|ab] [db1 self1]] eqn:Ha;
    apply generate_default_alias_bindings_frame in Ha as [-> [v1 Hself1]]; [left; eauto|].
  destruct (WorkshopCollection._generate_default_snippet_bindings env (db, self1))
    as [[e|sb] [db2 self2]] eqn:Hs;
    apply generate_default_snippet_bindings_frame in Hs as [-> [v2 Hself2]]; [left; eauto|].
  right. exists ab, sb, self2. subst self2 self1. done.
Qed.

(** [unsubscribe] after the inherited removal: nothing more when it raised,
    and otherwise the decrement and the event, whatever was removed. *)
Lemma unsubscribe_run `{SubscriberMixin} (env : Env) (db db1 : Db)
    (self : WorkshopCollection.t) (user_id : Z) (r : Exn + unit) :
  SubscriberMixin_unsubscribe (WorkshopCollection.id self) user_id db = (r, db1) →
  WorkshopCollection.unsubscribe env user_id (db, self)
  = match r with
    | inl e => (inl e, (db1, self))
    | inr _ =>
        (inr tt,
         (insert_event
            (mkAnalyticsEvent "unsubscribe" (WorkshopCollection.id self) (utcnow env))
            (update_one_collection (WorkshopCollection.id self) (inc_num_subscribers (-1))
               db1),
          self))
    end.
Proof.
  intros Hsuper. unfold WorkshopCollection.unsubscribe. run.
  rewrite Hsuper. by destruct r.
Qed.

Lemma unset_server_active_run `{GuildActiveMixin} (env : Env) (db db1 : Db)
    (self : WorkshopCollection.t) (guild_id : Z) (r : Exn + unit) :
  GuildActiveMixin_unset_server_active (WorkshopCollection.id self) guild_id db = (r, db1) →
  WorkshopCollection.unset_server_active env guild_id (db, self)
  = match r with
    | inl e => (inl e, (db1, self))
    | inr _ =>
        (inr tt,
         (insert_event
            (mkAnalyticsEvent "server_unsubscribe" (WorkshopCollection.id self) (utcnow env))
            (update_one_collection (WorkshopCollection.id self)
               (inc_num_guild_subscribers (-1)) db1),
          self))
    end.
Proof.
  intros Hsuper. unfold WorkshopCollection.unset_server_active. run.
  rewrite Hsuper. by destruct r.
Qed.

Lemma num_subscribers_inc (k : Z) (db : Db) (self_id : option ObjectId)
    (ev : AnalyticsEvent) (cid : ObjectId) :
  self_id = Some cid →
  num_subscribers (insert_event ev (update_one_collection self_id (inc_num_subscribers k) db))
                  cid
  = (λ n, n + k) <$> num_subscribers db cid.
Proof.
  intros ->. unfold num_subscribers. simpl. rewrite lookup_alter_eq.
  by destruct (workshop_collections db !! cid).
Qed.

Lemma num_guild_subscribers_inc (k : Z) (db : Db) (self_id : option ObjectId)
    (ev : AnalyticsEvent) (cid : ObjectId) :
  self_id = Some cid →
  num_guild_subscribers
    (insert_event ev (update_one_collection self_id (inc_num_guild_subscribers k) db)) cid
  = (λ n, n + k) <$> num_guild_subscribers db cid.
Proof.
  intros ->. unfold num_guild_subscribers. simpl. rewrite lookup_alter_eq.
  by destruct (workshop_collections db !! cid).
Qed.

(** C10: [unsubscribe] and [unset_server_active] test no precondition of
    their own: in every state, subscribed or not, when the inherited removal
    of the record returns, the stored counter of the collection goes from [n]
    to [n - 1]; so from [0] it goes below zero. *)
Theorem unsubscribe_decrements_unconditionally
    `{SubscriberMixin} `{GuildActiveMixin} `{!SubscriberMixinLaws} `{!GuildActiveMixinLaws}
    (env : Env) (db db1 : Db) (self : WorkshopCollection.t) (subscriber : Z)
    (cid : ObjectId) (n : Z) :
  WorkshopCollection.id self = Some cid →
  (num_subscribers db cid = Some n →
   SubscriberMixin_unsubscribe (WorkshopCollection.id self) subscriber db = (inr tt, db1) →
   ∃ db', WorkshopCollection.unsubscribe env subscriber (db, self) = (inr tt, (db', self))
     ∧ num_subscribers db' cid = Some (n - 1))
  ∧ (num_guild_subscribers db cid = Some n →
     GuildActiveMixin_unset_server_active (WorkshopCollection.id self) subscriber db
     = (inr tt, db1) →
     ∃ db', WorkshopCollection.unset_server_active env subscriber (db, self)
            = (inr tt, (db', self))
       ∧ num_guild_subscribers db' cid = Some (n - 1)).
Proof.
  intros Hid. split; intros Hn Hsuper.
  - rewrite (unsubscribe_run env db db1 self subscriber _ Hsuper).
    eexists. split; [reflexivity|].
    rewrite num_subscribers_inc by done. unfold num_subscribers in *.
    rewrite (unsubscribe_frame _ _ _ _ _ Hsuper).
    destruct (workshop_collections db !! cid); simplify_eq/=. f_equal; lia.
  - rewrite (unset_server_active_run env db db1 self subscriber _ Hsuper).
    eexists. split; [reflexivity|].
    rewrite num_guild_subscribers_inc by done. unfold num_guild_subscribers in *.
    rewrite (unset_server_active_frame _ _ _ _ _ Hsuper).
    destruct (workshop_collections db !! cid); simplify_eq/=. f_equal; lia.
Qed.

(** User 42 and guild 300 never joined collection 10, whose counters are
    zero; each removal leaves its counter at [-1]. *)
Lemma unsubscribe_decrements_unconditionally_witness :
  is_subscribed ex_db (Some 10%N) 42 = false
  ∧ is_server_active ex_db (Some 10%N) 300 = false
  ∧ (∃ db', WorkshopCollection.unsubscribe ex_env 42 (ex_db, ex_pack)
            = (inr tt, (db', ex_pack))
       ∧ num_subscribers db' 10%N = Some (0 - 1))
  ∧ (∃ db', WorkshopCollection.unset_server_active ex_env 300 (ex_db, ex_pack)
            = (inr tt, (db', ex_pack))
       ∧ num_guild_subscribers db' 10%N = Some (0 - 1)).
Proof.
  split_and!; try reflexivity.
  - apply (proj1 (unsubscribe_decrements_unconditionally ex_env ex_db ex_db ex_pack 42
                    10%N 0 eq_refl)); reflexivity.
  - apply (proj2 (unsubscribe_decrements_unconditionally ex_env ex_db ex_db ex_pack 300
                    10%N 0 eq_refl)); reflexivity.
Defined.



(** The same round trip, run: both calls return and the counters are back at
    zero, with the two events logged. *)
Example subscribe_unsubscribe_run :
  ∃ db' self',
    (WorkshopCollection.subscribe ex_env 42
       ≫= λ _, WorkshopCollection.unsubscribe ex_env 42) (ex_db, ex_pack)
    = (inr tt, (db', self'))
    ∧ num_subscribers db' 10%N = Some 0
    ∧ workshop_subscriptions db' = []
    ∧ ev_type <$> analytics_alias_events db' = ["subscribe"; "unsubscribe"].
Proof. eexists _, _. split_and!; reflexivity. Qed.

(** * Further properties of the module *)

(** ** Help texts *)

Lemma split_nonempty (sep : Ascii.ascii) (s : string) : split sep s ≠ [].
Proof.
  destruct s as [|c s]; simpl; [done|].
  case_decide; [done|]. by destruct (split sep s).
Qed.

Lemma split_sep (sep : Ascii.ascii) (s : string) :
  split sep (String sep s) = EmptyString :: split sep s.
Proof. simpl. by rewrite decide_True. Qed.

Lemma split_cons (sep : Ascii.ascii) (c : Ascii.ascii) (s : string) :
  c ≠ sep →
  ∃ piece pieces, split sep s = piece :: pieces
    ∧ split sep (String c s) = String c piece :: pieces.
Proof.
  intros Hc. simpl. rewrite decide_False by done.
  destruct (split sep s) as [|piece pieces] eqn:Hs; [by apply split_nonempty in Hs|].
  by eexists _, _.
Qed.

(** Splitting a text at a separator loses nothing: the pieces joined with
    the separator are the text again, no piece contains the separator, and
    there is always a first piece. *)
Lemma split_join (sep : Ascii.ascii) (s : string) :
  join sep (split sep s) = s
  ∧ Forall (λ piece, sep ∉ chars piece) (split sep s)
  ∧ is_Some (split sep s !! 0%nat).
Proof.
  induction s as [|c s (IHjoin & IHfree & IHhead)].
  - split_and!; [done| |by eexists]. repeat constructor. apply not_elem_of_nil.
  - destruct (decide (c = sep)) as [->|Hc].
    + rewrite split_sep. split_and!; [| |by eexists].
      * simpl. destruct (split sep s) eqn:Hs; [by apply split_nonempty in Hs|].
        by rewrite IHjoin.
      * constructor; [apply not_elem_of_nil|done].
    + destruct (split_cons sep c s Hc) as (piece & pieces & Hs & ->).
      rewrite Hs in *. split_and!; [| |by eexists].
      * simpl in *. destruct pieces; by rewrite <- IHjoin.
      * inversion IHfree as [|? ? Hpiece Hpieces]; subst.
        constructor; [|done]. unfold chars in *. simpl.
        apply not_elem_of_cons. by split.
Qed.

(** X2: [short_docs] never fails, not even on empty docs: it is the part of
    the docs before the first newline, that is, a text without newline that
    is either the whole docs or is followed in them by a newline. *)
Theorem short_docs_first_line (self : WorkshopCollectableObject.t) :
  ∃ line,
    WorkshopCollectableObject.short_docs self = Some line
    ∧ (newline ∉ chars line)
    ∧ (WorkshopCollectableObject.docs self = line
       ∨ ∃ rest, WorkshopCollectableObject.docs self = line +:+ String newline rest).
Proof.
  unfold WorkshopCollectableObject.short_docs.
  generalize (WorkshopCollectableObject.docs self). intros s.
  induction s as [|c s (line & Hline & Hfree & Hdocs)].
  - exists EmptyString. split_and!; [done|apply not_elem_of_nil|by left].
  - destruct (decide (c = newline)) as [->|Hc].
    + exists EmptyString. rewrite split_sep.
      split_and!; [done|apply not_elem_of_nil|]. right. by exists s.
    + destruct (split_cons newline c s Hc) as (piece & pieces & Hs & ->).
      rewrite Hs in Hline. injection Hline as ->.
      exists (String c line). split_and!; [done| |].
      * unfold chars in *. simpl. apply not_elem_of_cons. by split.
      * destruct Hdocs as [->|[rest ->]]; [by left|]. right. by exists rest.
Qed.

(** ** Entitlements, continued *)

Lemma count_ids_append (out : gmap string (list Z)) (ty : string) (x : Z) :
  count_ids (<[ty := default [] (out !! ty) ++ [x]]> out) = S (count_ids out).
Proof.
  unfold count_ids.
  assert (Hcomm : ∀ (m : gmap string (list Z)) (j1 j2 : string) (z1 z2 : list Z) (y : nat),
            j1 ≠ j2 → m !! j1 = Some z1 → m !! j2 = Some z2 →
            (length z1 + (length z2 + y) = length z2 + (length z1 + y))%nat).
  { intros. lia. }
  destruct (out !! ty) as [ids|] eqn:Hty; simpl.
  - rewrite <- (insert_delete_eq out ty (ids ++ [x])).
    rewrite map_fold_insert_L; [|by apply Hcomm|by rewrite lookup_delete_eq].
    rewrite (map_fold_delete_L _ _ ty ids out); [|by apply Hcomm|done].
    rewrite length_app. simpl. lia.
  - rewrite map_fold_insert_L; [|by apply Hcomm|done]. simpl. lia.
Qed.

Lemma count_ids_fold (ents : list RequiredEntitlement) (out : gmap string (list Z)) :
  count_ids
    (foldl (λ out ent,
              <[entity_type ent :=
                  default [] (out !! entity_type ent) ++ [entity_id ent]]> out)
           out ents)
  = (length ents + count_ids out)%nat.
Proof.
  revert out. induction ents as [|ent ents IH]; intros out; [done|].
  simpl. rewrite IH, count_ids_append. lia.
Qed.

(** X3: [get_entitlements] neither loses nor repeats an entitlement: the
    lists of the result hold as many ids as there are entitlements, and its
    keys are exactly the entity types that occur; the [required] flag plays
    no part. *)
Theorem get_entitlements_partition (self : WorkshopCollectableObject.t) :
  count_ids (WorkshopCollectableObject.get_entitlements self)
  = length (WorkshopCollectableObject.entitlements self)
  ∧ dom (WorkshopCollectableObject.get_entitlements self)
    = list_to_set (entity_type <$> WorkshopCollectableObject.entitlements self).
Proof.
  unfold WorkshopCollectableObject.get_entitlements. split.
  - rewrite count_ids_fold. unfold count_ids. rewrite map_fold_empty. lia.
  - apply set_eq. intros ty.
    rewrite elem_of_dom, get_entitlements_fold, lookup_empty, elem_of_list_to_set.
    rewrite list_elem_of_fmap. unfold ids_of_type.
    destruct (entity_id <$> filter _ _) as [|z ids] eqn:Hids.
    + split; [by intros [? ?]|]. intros (ent & -> & Hent).
      apply fmap_nil_inv in Hids.
      assert (ent ∈ filter (λ e, entity_type e = entity_type ent)
                (WorkshopCollectableObject.entitlements self)) as Hin
        by by apply list_elem_of_filter.
      rewrite Hids in Hin. by apply elem_of_nil in Hin.
    + split; [|by eexists]. intros _.
      assert (z ∈ entity_id <$> filter (λ e, entity_type e = ty)
                (WorkshopCollectableObject.entitlements self)) as Hin
        by (rewrite Hids; by left).
      apply list_elem_of_fmap in Hin as (ent & _ & [Hty Hent]%list_elem_of_filter).
      by exists ent.
Qed.

(** ** Collections in the store *)

Lemma bson_datetime_exact (t : datetime) : bson_datetime t = t ↔ t `mod` 1000 = 0.
Proof. unfold bson_datetime. pose proof (Z.div_mod t 1000). lia. Qed.

(** X4: a collection is read back as it was created, up to the precision of
    the store: for an owner identifier that fits in 8 bytes, [from_id] on the
    identifier of the instance [create_new] returns gives that instance with
    its two dates cut to the millisecond, which is that same instance exactly
    when the clock read a whole number of milliseconds; [create_new] touches
    no other collection and no other part of the store.  For an owner
    identifier that does not fit, the store is left as it was. *)
Theorem create_new_from_id (env env' : Env) (db : Db) (user_id : Z)
    (name description : string) (image : option string) :
  (bson_int user_id →
   ∃ inst db',
     WorkshopCollection.create_new env user_id name description image db = (inr inst, db')
     ∧ WorkshopCollection.from_id env' db' (WorkshopCollection.id inst)
       = inr (WorkshopCollection.init (WorkshopCollection.id inst)
                (WorkshopCollection.name inst) (WorkshopCollection.description inst)
                (WorkshopCollection.image inst) (WorkshopCollection.owner inst)
                (WorkshopCollection._alias_ids inst) (WorkshopCollection._snippet_ids inst)
                (WorkshopCollection.publish_state inst)
                (WorkshopCollection.approx_num_subscribers inst)
                (WorkshopCollection.approx_num_guild_subscribers inst)
                (bson_datetime (WorkshopCollection.last_edited inst))
                (bson_datetime (WorkshopCollection.created_at inst))
                (WorkshopCollection.tags inst))
     ∧ WorkshopCollection.last_edited inst = now env
     ∧ WorkshopCollection.created_at inst = now env
     ∧ (WorkshopCollection.from_id env' db' (WorkshopCollection.id inst) = inr inst
        ↔ now env `mod` 1000 = 0)
     ∧ (∀ k, k ≠ new_oid env → workshop_collections db' !! k = workshop_collections db !! k)
     ∧ workshop_aliases db' = workshop_aliases db
     ∧ workshop_snippets db' = workshop_snippets db
     ∧ workshop_subscriptions db' = workshop_subscriptions db
     ∧ analytics_alias_events db' = analytics_alias_events db)
  ∧ (¬ bson_int user_id →
     (WorkshopCollection.create_new env user_id name description image db).2 = db).
Proof.
  split; [|by intros Hbig; rewrite create_new_raises].
  intros Hfits. eexists _, _. split; [by apply create_new_returns|].
  assert (WorkshopCollection.from_id env'
            (set_collections
               (λ colls, <[new_oid env :=
                             mkCollectionDoc name description image user_id [] [] PRIVATE 0 0
                               (bson_datetime (now env)) (bson_datetime (now env)) []]> colls)
               db)
            (Some (new_oid env))
          = inr (WorkshopCollection.init (Some (new_oid env)) name description image user_id
                   [] [] PRIVATE 0 0 (bson_datetime (now env)) (bson_datetime (now env)) []))
    as Hread.
  { unfold WorkshopCollection.from_id. simpl. by rewrite lookup_insert_eq. }
  split_and!; try done.
  - simpl. rewrite Hread. unfold WorkshopCollection.init. split.
    + intros [= Ht]. by apply bson_datetime_exact.
    + intros Ht%bson_datetime_exact. by rewrite Ht.
  - intros k Hk. simpl. by rewrite lookup_insert_ne.
Qed.

Lemma create_new_from_id_witness :
  (∃ inst db',
     WorkshopCollection.create_new ex_env_micro 7 "notes" "" None ex_db = (inr inst, db')
     ∧ WorkshopCollection.from_id ex_env db' (WorkshopCollection.id inst)
       = inr (WorkshopCollection.init (Some 98%N) "notes" "" None 7 [] [] PRIVATE 0 0
                1234000 1234000 [])
     ∧ WorkshopCollection.last_edited inst = 1234567
     ∧ WorkshopCollection.from_id ex_env db' (WorkshopCollection.id inst) ≠ inr inst)
  ∧ (WorkshopCollection.create_new ex_env ex_big_user "notes" "" None ex_db).2 = ex_db.
Proof.
  split.
  - destruct (proj1 (create_new_from_id ex_env_micro ex_env ex_db 7 "notes" "" None))
      as (inst & db' & Hnew & Hread & Hedited & Hcreated & Hsame & _).
    { unfold bson_int. lia. }
    exists inst, db'. injection Hnew as <- <-.
    split_and!; [reflexivity|exact Hread|exact Hedited|].
    intros Heq. apply Hsame in Heq. vm_compute in Heq. discriminate.
  - apply (proj2 (create_new_from_id ex_env ex_env ex_db ex_big_user "notes" "" None)).
    unfold bson_int, ex_big_user. lia.
Defined.

(** X5: [from_id] and [to_dict] are inverse to each other: [from_id] returns
    the collection [c] for an identifier exactly when the document stored
    under it is [to_dict c] and [c] carries that identifier with both caches
    unloaded. *)
Theorem from_id_to_dict (env : Env) (db : Db) (_id : ObjectId) (c : WorkshopCollection.t) :
  WorkshopCollection.from_id env db (Some _id) = inr c
  ↔ workshop_collections db !! _id = Some (WorkshopCollection.to_dict c)
    ∧ WorkshopCollection.id c = Some _id
    ∧ WorkshopCollection._aliases c = None
    ∧ WorkshopCollection._snippets c = None.
Proof.
  unfold WorkshopCollection.from_id. simpl. split.
  - destruct (workshop_collections db !! _id) as [raw|]; [|done].
    intros [= <-]. split_and!; try done. by destruct raw.
  - intros (-> & Hid & Ha & Hs). destruct c; simpl in *. by subst.
Qed.

Lemma elem_of_user_owned_ids (db : Db) (user_id : Z) (i : ObjectId) :
  i ∈ WorkshopCollection.user_owned_ids db user_id
  ↔ ∃ d, workshop_collections db !! i = Some d ∧ cd_owner d = user_id.
Proof.
  unfold WorkshopCollection.user_owned_ids. rewrite list_elem_of_fmap. split.
  - intros ([k d] & -> & [Hd Howner]%elem_of_map_to_list%map_lookup_filter_Some).
    by exists d.
  - intros (d & Hd & Howner). exists (i, d). split; [done|].
    by apply elem_of_map_to_list, map_lookup_filter_Some.
Qed.

(** X6: [user_owned_ids] yields, without repetition, exactly the identifiers
    of the stored collections of that owner; after a [create_new] that
    returned (the creator's identifier fits in 8 bytes) the new identifier is
    among the creator's and among nobody else's, and the other identifiers
    are owned as before; after a [create_new] that raised (the identifier
    does not fit) everybody owns what they owned before. *)
Theorem user_owned_ids_create_new (env : Env) (db : Db) (user_id : Z)
    (name description : string) (image : option string) (u : Z) :
  NoDup (WorkshopCollection.user_owned_ids db u)
  ∧ (∀ i, i ∈ WorkshopCollection.user_owned_ids db u
          ↔ ∃ d, workshop_collections db !! i = Some d ∧ cd_owner d = u)
  ∧ (bson_int user_id →
     (∃ inst, (WorkshopCollection.create_new env user_id name description image db).1
              = inr inst)
     ∧ ∀ i,
         i ∈ WorkshopCollection.user_owned_ids
               (WorkshopCollection.create_new env user_id name description image db).2 u
         ↔ (i = new_oid env ∧ u = user_id)
           ∨ (i ≠ new_oid env ∧ i ∈ WorkshopCollection.user_owned_ids db u))
  ∧ (¬ bson_int user_id →
     (WorkshopCollection.create_new env user_id name description image db).1
     = inl OverflowError
     ∧ WorkshopCollection.user_owned_ids
         (WorkshopCollection.create_new env user_id name description image db).2 u
       = WorkshopCollection.user_owned_ids db u).
Proof.
  split_and!.
  - unfold WorkshopCollection.user_owned_ids. apply NoDup_fst_map_to_list.
  - apply elem_of_user_owned_ids.
  - intros Hfits. rewrite create_new_returns by done. split; [by eexists|].
    intros i. rewrite !elem_of_user_owned_ids. simpl.
    destruct (decide (i = new_oid env)) as [->|Hne].
    + rewrite lookup_insert_eq. split.
      * intros (d & [= <-] & Howner). left. by split.
      * intros [[_ ->]|[? _]]; [|done]. by eexists.
    + rewrite lookup_insert_ne by done. split; [by right|].
      by intros [[? _]|[_ ?]].
  - intros Hbig. by rewrite create_new_raises.
Qed.

Lemma user_owned_ids_create_new_witness :
  (98%N ∈ WorkshopCollection.user_owned_ids
            (WorkshopCollection.create_new ex_env_micro 7 "notes" "" None ex_db).2 7
   ∧ (98%N ∉ WorkshopCollection.user_owned_ids
               (WorkshopCollection.create_new ex_env_micro 7 "notes" "" None ex_db).2 42))
  ∧ WorkshopCollection.user_owned_ids
      (WorkshopCollection.create_new ex_env ex_big_user "notes" "" None ex_db).2 ex_big_user
    = WorkshopCollection.user_owned_ids ex_db ex_big_user.
Proof.
  assert (bson_int 7) as Hfits by (unfold bson_int; lia).
  assert (¬ bson_int ex_big_user) as Hbig by (unfold bson_int, ex_big_user; lia).
  split_and!.
  - apply (proj2 (proj1 (proj2 (proj2
             (user_owned_ids_create_new ex_env_micro ex_db 7 "notes" "" None 7))) Hfits)).
    left. by split.
  - intros Hin.
    apply (proj2 (proj1 (proj2 (proj2
             (user_owned_ids_create_new ex_env_micro ex_db 7 "notes" "" None 42))) Hfits))
      in Hin as [[_ Heq]|[Hne _]]; [discriminate Heq|by apply Hne].
  - apply (proj2 (proj2 (proj2 (proj2
             (user_owned_ids_create_new ex_env ex_db ex_big_user "notes" "" None
                ex_big_user))) Hbig)).
Defined.


(** ** Loading members *)

Lemma load_members_app {A} (fetch : ObjectId → Exn + A) (pre : list ObjectId) :
  Forall (λ i, ∃ a, fetch i = inr a) pre →
  ∃ objs, Forall2 (λ i a, fetch i = inr a) pre objs
    ∧ ∀ rest acc, load_members fetch (pre ++ rest) acc
                  = load_members fetch rest (acc ++ objs).
Proof.
  induction 1 as [|i pre [a Ha] _ (objs & Hobjs & IH)].
  - exists []. split; [done|]. intros rest acc. by rewrite app_nil_r.
  - exists (a :: objs). split; [by constructor|]. intros rest acc.
    simpl. rewrite Ha, IH, <- app_assoc. done.
Qed.

Lemma alias_from_id_stored (env : Env) (db : Db) (i : ObjectId)
    (collection : option CollectionRef) (parent : option WorkshopAlias.t)
    (a : WorkshopAlias.t) :
  WorkshopAlias.from_id env db (Some i) collection parent = inr a →
  ∃ raw, workshop_aliases db !! i = Some raw
    ∧ a = WorkshopAlias.from_dict i raw collection parent.
Proof.
  unfold WorkshopAlias.from_id. simpl.
  destruct (workshop_aliases db !! i) as [raw|]; [|done].
  intros [= <-]. by exists raw.
Qed.

(** X8: when every alias identifier of a collection resolves,
    [load_aliases] returns one alias per identifier, in the order of the
    identifiers and under the stored names; each of them already knows the
    collection that loaded it, and has neither parent nor subcommands loaded. *)
Theorem load_aliases_members (env : Env) (db : Db) (self : WorkshopCollection.t) :
  Forall (λ i, is_Some (workshop_aliases db !! i)) (WorkshopCollection._alias_ids self) →
  ∃ l,
    WorkshopCollection.load_aliases env db self
    = (inr l, WorkshopCollection.set_aliases (Some l) self)
    ∧ WorkshopAlias.id <$> l = WorkshopCollection._alias_ids self
    ∧ Forall (λ a,
        ad_name <$> workshop_aliases db !! WorkshopAlias.id a = Some (WorkshopAlias.name a)
        ∧ WorkshopAlias.collection a = inr (WorkshopCollection.ref_of self)
        ∧ WorkshopAlias.parent a
          = inl (AttributeError "Parent is not loaded yet - run load_parent() first")
        ∧ WorkshopAlias.subcommands a
          = inl (AttributeError
                   "Subcommands are not loaded yet - run load_subcommands() first")) l.
Proof.
  intros Hall. unfold WorkshopCollection.load_aliases.
  edestruct (load_members_all
    (λ alias_id, WorkshopAlias.from_id env db (Some alias_id)
                   (Some (WorkshopCollection.ref_of self)) None)
    (WorkshopCollection._alias_ids self) []) as (l & -> & Hl).
  { eapply Forall_impl; [exact Hall|]. intros i [raw Hraw].
    unfold WorkshopAlias.from_id. simpl. rewrite Hraw. by eexists. }
  exists l. split; [done|].
  revert Hl. generalize (WorkshopCollection._alias_ids self) as ids. clear Hall.
  intros ids Hl.
  induction Hl as [|i a ids l Ha _ [IHids IHall]]; [done|].
  apply alias_from_id_stored in Ha as (raw & Hraw & ->).
  split; [by rewrite fmap_cons, IHids|].
  constructor; [|done]. split_and!; try done.
  change (WorkshopAlias.id (WorkshopAlias.from_dict i raw
            (Some (WorkshopCollection.ref_of self)) None)) with i.
  by rewrite Hraw.
Qed.

Lemma load_aliases_members_witness :
  ∃ l,
    WorkshopCollection.load_aliases ex_env ex_db ex_pack
    = (inr l, WorkshopCollection.set_aliases (Some l) ex_pack)
    ∧ WorkshopAlias.id <$> l = [1%N; 2%N]
    ∧ Forall (λ a,
        ad_name <$> workshop_aliases ex_db !! WorkshopAlias.id a
        = Some (WorkshopAlias.name a)
        ∧ WorkshopAlias.collection a = inr (WorkshopCollection.ref_of ex_pack)
        ∧ WorkshopAlias.parent a
          = inl (AttributeError "Parent is not loaded yet - run load_parent() first")
        ∧ WorkshopAlias.subcommands a
          = inl (AttributeError
                   "Subcommands are not loaded yet - run load_subcommands() first")) l.
Proof.
  apply (load_aliases_members ex_env ex_db ex_pack).
  repeat constructor; vm_compute; eauto.
Defined.

(** X9: a load that fails is not undone: when the identifiers before the
    first unresolvable one resolve, [load_aliases] raises
    [CollectableNotFound] and leaves in the cache the aliases loaded so far,
    which the [aliases] accessor then returns instead of the "not loaded"
    error. *)
Theorem load_aliases_partial (env : Env) (db : Db) (self : WorkshopCollection.t)
    (pre post : list ObjectId) (missing : ObjectId) :
  WorkshopCollection._alias_ids self = pre ++ missing :: post →
  Forall (λ i, is_Some (workshop_aliases db !! i)) pre →
  workshop_aliases db !! missing = None →
  ∃ l,
    WorkshopCollection.load_aliases env db self
    = (inl CollectableNotFound, WorkshopCollection.set_aliases (Some l) self)
    ∧ WorkshopCollection.aliases (WorkshopCollection.load_aliases env db self).2 = inr l
    ∧ WorkshopAlias.id <$> l = pre.
Proof.
  intros Hids Hpre Hmissing. unfold WorkshopCollection.load_aliases.
  edestruct (load_members_app
    (λ alias_id, WorkshopAlias.from_id env db (Some alias_id)
                   (Some (WorkshopCollection.ref_of self)) None) pre)
    as (l & Hl & Hrun).
  { eapply Forall_impl; [exact Hpre|]. intros i [raw Hraw].
    unfold WorkshopAlias.from_id. simpl. rewrite Hraw. by eexists. }
  rewrite Hids, Hrun. simpl. unfold WorkshopAlias.from_id at 1 3. simpl.
  rewrite Hmissing. exists l. split_and!; [done|done|].
  clear Hrun Hids Hpre. induction Hl as [|i a ids l' Ha _ IH]; [done|].
  apply alias_from_id_stored in Ha as (raw & _ & ->).
  by rewrite fmap_cons, IH.
Qed.

Lemma load_aliases_partial_witness :
  let self := WorkshopCollection.init (Some 12%N) "relics" "" None 7 [1%N; 9%N; 2%N] []
                PUBLISHED 0 0 700 700 [] in
  ∃ l,
    WorkshopCollection.load_aliases ex_env ex_db self
    = (inl CollectableNotFound, WorkshopCollection.set_aliases (Some l) self)
    ∧ WorkshopCollection.aliases (WorkshopCollection.load_aliases ex_env ex_db self).2
      = inr l
    ∧ WorkshopAlias.id <$> l = [1%N].
Proof.
  apply (load_aliases_partial ex_env ex_db _ [1%N] [2%N] 9%N).
  - reflexivity.
  - repeat constructor; vm_compute; eauto.
  - reflexivity.
Defined.

Lemma load_subcommands_loop_all (env : Env) (db : Db) (self : WorkshopAlias.t)
    (ids : list ObjectId) (acc : list WorkshopAlias.t) :
  Forall (λ i, is_Some (workshop_aliases db !! i)) ids →
  ∃ children,
    WorkshopAlias.load_subcommands_loop env db self ids acc = (inr tt, acc ++ children)
    ∧ WorkshopAlias.id <$> children = ids
    ∧ Forall (λ child,
        (∃ p, WorkshopAlias.parent child = inr p
              ∧ WorkshopAlias.id p = WorkshopAlias.id self)
        ∧ WorkshopAlias.collection child = WorkshopAlias.collection self
        ∧ WorkshopAlias.subcommands child
          = inl (AttributeError
                   "Subcommands are not loaded yet - run load_subcommands() first"))
        children.
Proof.
  intros Hall. revert acc.
  induction Hall as [|i ids [raw Hraw] _ IH]; intros acc.
  - exists []. by rewrite app_nil_r.
  - simpl. unfold WorkshopAlias.from_id at 1. simpl. rewrite Hraw.
    destruct (IH (acc ++ [WorkshopAlias.from_dict i raw
                    (WorkshopCollectableObject._collection (WorkshopAlias.base self))
                    (Some (WorkshopAlias.set_subcommands (Some acc) self))]))
      as (children & -> & Hids & Hchildren).
    eexists (_ :: children). rewrite <- app_assoc. split_and!; [done| |].
    + by rewrite fmap_cons, Hids.
    + constructor; [|done]. split_and!; [by eexists|done|done].
Qed.

(** X10: when every subcommand identifier of an alias resolves,
    [load_subcommands] returns one child per identifier, in order; each
    child's [parent] accessor returns an alias with the identifier of the
    loading alias, whatever parent identifier the child's document stores,
    and each child shares the loading alias's collection reference. *)
Theorem load_subcommands_children (env : Env) (db : Db) (self : WorkshopAlias.t) :
  Forall (λ i, is_Some (workshop_aliases db !! i)) (WorkshopAlias._subcommand_ids self) →
  ∃ children,
    WorkshopAlias.load_subcommands env db self
    = (inr children, WorkshopAlias.set_subcommands (Some children) self)
    ∧ WorkshopAlias.subcommands (WorkshopAlias.load_subcommands env db self).2
      = inr children
    ∧ WorkshopAlias.id <$> children = WorkshopAlias._subcommand_ids self
    ∧ Forall (λ child,
        (∃ p, WorkshopAlias.parent child = inr p
              ∧ WorkshopAlias.id p = WorkshopAlias.id self)
        ∧ WorkshopAlias.collection child = WorkshopAlias.collection self
        ∧ WorkshopAlias.subcommands child
          = inl (AttributeError
                   "Subcommands are not loaded yet - run load_subcommands() first"))
        children.
Proof.
  intros Hall. unfold WorkshopAlias.load_subcommands.
  destruct (load_subcommands_loop_all env db self _ [] Hall)
    as (children & -> & Hids & Hchildren).
  by exists children.
Qed.

Lemma load_subcommands_children_witness :
  ∃ children,
    WorkshopAlias.load_subcommands ex_env ex_db ex_roll
    = (inr children, WorkshopAlias.set_subcommands (Some children) ex_roll)
    ∧ WorkshopAlias.subcommands (WorkshopAlias.load_subcommands ex_env ex_db ex_roll).2
      = inr children
    ∧ WorkshopAlias.id <$> children = [2%N]
    ∧ Forall (λ child,
        (∃ p, WorkshopAlias.parent child = inr p
              ∧ WorkshopAlias.id p = WorkshopAlias.id ex_roll)
        ∧ WorkshopAlias.collection child = WorkshopAlias.collection ex_roll
        ∧ WorkshopAlias.subcommands child
          = inl (AttributeError
                   "Subcommands are not loaded yet - run load_subcommands() first"))
        children.
Proof.
  apply (load_subcommands_children ex_env ex_db ex_roll).
  repeat constructor; vm_compute; eauto.
Defined.

(** X11: for an alias with a stored parent identifier, [load_parent] raises
    [CollectableNotFound] and leaves the alias as it was when no alias is
    stored under that identifier; otherwise it returns the stored parent,
    which the [parent] accessor returns from then on.  The parent it loads
    has the child's collection reference and no parent of its own loaded. *)
Theorem load_parent_stored (env : Env) (db : Db) (self : WorkshopAlias.t)
    (parent_id : ObjectId) :
  WorkshopAlias._parent_id self = Some parent_id →
  (workshop_aliases db !! parent_id = None →
   WorkshopAlias.load_parent env db self = (inl CollectableNotFound, self))
  ∧ (∀ raw, workshop_aliases db !! parent_id = Some raw →
       ∃ p,
         WorkshopAlias.load_parent env db self = (inr p, WorkshopAlias.set_parent (Some p) self)
         ∧ WorkshopAlias.parent (WorkshopAlias.load_parent env db self).2 = inr p
         ∧ WorkshopAlias.id p = parent_id
         ∧ WorkshopAlias.name p = ad_name raw
         ∧ WorkshopAlias.collection p = WorkshopAlias.collection self
         ∧ WorkshopAlias.parent p
           = inl (AttributeError "Parent is not loaded yet - run load_parent() first")).
Proof.
  intros Hid. split.
  - intros Hnone. unfold WorkshopAlias.load_parent, WorkshopAlias.from_id. run.
    by rewrite Hid; simpl; rewrite Hnone.
  - intros raw Hraw.
    exists (WorkshopAlias.from_dict parent_id raw
              (WorkshopCollectableObject._collection (WorkshopAlias.base self)) None).
    assert (WorkshopAlias.load_parent env db self
            = (inr (WorkshopAlias.from_dict parent_id raw
                      (WorkshopCollectableObject._collection (WorkshopAlias.base self)) None),
               WorkshopAlias.set_parent
                 (Some (WorkshopAlias.from_dict parent_id raw
                          (WorkshopCollectableObject._collection (WorkshopAlias.base self))
                          None)) self)) as ->.
    { unfold WorkshopAlias.load_parent, WorkshopAlias.from_id. run.
      by rewrite Hid; simpl; rewrite Hraw. }
    done.
Qed.

Lemma load_parent_stored_witness :
  (workshop_aliases ex_db !! 1%N = None →
   WorkshopAlias.load_parent ex_env ex_db ex_adv = (inl CollectableNotFound, ex_adv))
  ∧ (∀ raw, workshop_aliases ex_db !! 1%N = Some raw →
       ∃ p,
         WorkshopAlias.load_parent ex_env ex_db ex_adv
         = (inr p, WorkshopAlias.set_parent (Some p) ex_adv)
         ∧ WorkshopAlias.parent (WorkshopAlias.load_parent ex_env ex_db ex_adv).2 = inr p
         ∧ WorkshopAlias.id p = 1%N
         ∧ WorkshopAlias.name p = ad_name raw
         ∧ WorkshopAlias.collection p = WorkshopAlias.collection ex_adv
         ∧ WorkshopAlias.parent p
           = inl (AttributeError "Parent is not loaded yet - run load_parent() first")).
Proof.
  apply (load_parent_stored ex_env ex_db ex_adv 1%N). reflexivity.
Defined.

(** X12: [load_collection] looks the collection up under the member's stored
    collection identifier: without such a document it raises
    [CollectionNotFound] and the member keeps the reference it had; with one,
    the [collection] accessor returns from then on a reference to that
    collection, whichever reference the member was constructed with. *)
Theorem load_collection_stored (env : Env) (db : Db) (self : WorkshopCollectableObject.t) :
  (workshop_collections db !! WorkshopCollectableObject._collection_id self = None →
   load_collection env db self = (inl CollectionNotFound, self))
  ∧ (is_Some (workshop_collections db !! WorkshopCollectableObject._collection_id self) →
     let ref := mkCollectionRef (Some (WorkshopCollectableObject._collection_id self)) in
     load_collection env db self
     = (inr ref, WorkshopCollectableObject.set_collection (Some ref) self)
     ∧ WorkshopCollectableObject.collection (load_collection env db self).2 = inr ref).
Proof.
  split.
  - intros Hnone. unfold load_collection, WorkshopCollection.from_id. run.
    by rewrite Hnone.
  - intros [raw Hraw]. simpl.
    assert (load_collection env db self
            = (inr (mkCollectionRef (Some (WorkshopCollectableObject._collection_id self))),
               WorkshopCollectableObject.set_collection
                 (Some (mkCollectionRef
                          (Some (WorkshopCollectableObject._collection_id self)))) self))
      as ->; [|done].
    unfold load_collection, WorkshopCollection.from_id. run. by rewrite Hraw.
Qed.

Lemma load_collection_stored_witness :
  let snippet := WorkshopCollectableObject.mk 3%N "bless" "+1d4" [] "Adds a d4." []
                   (Some (mkCollectionRef (Some 11%N))) 10%N in
  load_collection ex_env ex_db snippet
  = (inr (mkCollectionRef (Some 10%N)),
     WorkshopCollectableObject.set_collection (Some (mkCollectionRef (Some 10%N))) snippet)
  ∧ WorkshopCollectableObject.collection (load_collection ex_env ex_db snippet).2
    = inr (mkCollectionRef (Some 10%N)).
Proof.
  apply (proj2 (load_collection_stored ex_env ex_db
                  (WorkshopCollectableObject.mk 3%N "bless" "+1d4" [] "Adds a d4." []
                     (Some (mkCollectionRef (Some 11%N))) 10%N))).
  vm_compute. eauto.
Defined.

(** ** Binding reconciliation, continued *)

Lemma iter_set_empty (env : Env) : iter_set_ok env → iter_set env ∅ = [].
Proof.
  intros Hiter. apply Permutation_nil_r. by rewrite (Hiter ∅), elements_empty.
Qed.

Lemma bindings_sanity_check_bound (env : Env) (db : Db) (self : WorkshopCollection.t)
    (the_ids : list ObjectId) (the_bindings : list Binding) (binding_cls : BindingCls) :
  iter_set_ok env →
  (∀ i, i ∈ the_ids → i ∈ b_id <$> the_bindings) →
  WorkshopCollection._bindings_sanity_check env db self the_ids binding_cls the_bindings
  = (inr (filter (λ b, b_id b ∈ the_ids) the_bindings), the_bindings).
Proof.
  intros Hiter Hbound. unfold WorkshopCollection._bindings_sanity_check. run.
  assert ((list_to_set the_ids : gset N) ∖ list_to_set (b_id <$> the_bindings) = ∅) as ->.
  { apply elem_of_equiv_empty_L. intros i.
    rewrite elem_of_difference, !elem_of_list_to_set. intros [Hin Hnot].
    by apply Hnot, Hbound. }
  by rewrite iter_set_empty.
Qed.

(** Whatever the store holds, the loop only appends, and what it appends
    are bindings of the identifiers it was given, in their order. *)
Lemma append_defaults_shape (binding_cls : BindingCls) (env : Env) (db : Db)
    (collection : option CollectionRef) (missing_ids : list ObjectId)
    (the_bindings the_bindings' : list Binding) (r : Exn + unit) :
  for_each missing_ids (λ missing,
    obj ← lift (BindingCls_from_id binding_cls env db (Some missing) collection);
    modify (λ the_bindings, the_bindings ++ [mkBinding obj.1 obj.2])) the_bindings
  = (r, the_bindings') →
  ∃ defaults,
    the_bindings' = the_bindings ++ defaults
    ∧ Forall (λ b, b_id b ∈ missing_ids) defaults
    ∧ match r with
      | inr _ => b_id <$> defaults = missing_ids
      | inl e => e = CollectableNotFound
      end.
Proof.
  revert the_bindings.
  induction missing_ids as [|i ids IH]; intros the_bindings.
  - intros [= <- <-]. exists []. by rewrite app_nil_r.
  - simpl. run. rewrite BindingCls_from_id_stored.
    destruct (stored_name binding_cls db i) as [n|]; simpl.
    + run. intros (defaults & -> & Hin & Hr)%IH.
      exists (mkBinding n i :: defaults). rewrite <- app_assoc. split_and!; [done| |].
      * constructor; [by left|]. eapply Forall_impl; [exact Hin|].
        intros b Hb. by right.
      * destruct r; [done|]. by rewrite fmap_cons, Hr.
    + intros [= <- <-]. exists []. by rewrite app_nil_r.
Qed.

Lemma bindings_sanity_check_shape (env : Env) (db : Db) (self : WorkshopCollection.t)
    (the_ids : list ObjectId) (the_bindings the_bindings' : list Binding)
    (binding_cls : BindingCls) (r : Exn + list Binding) :
  iter_set_ok env →
  WorkshopCollection._bindings_sanity_check env db self the_ids binding_cls the_bindings
  = (r, the_bindings') →
  ∃ defaults,
    the_bindings' = the_bindings ++ defaults
    ∧ Forall (λ b, b_id b ∈ the_ids ∧ b_id b ∉ b_id <$> the_bindings) defaults
    ∧ match r with
      | inr result =>
          result = filter (λ b, b_id b ∈ the_ids) the_bindings ++ defaults
          ∧ ∀ i, i ∈ the_ids → i ∈ b_id <$> result
      | inl e => e = CollectableNotFound
      end.
Proof.
  intros Hiter. unfold WorkshopCollection._bindings_sanity_check. run.
  set (missing := (list_to_set the_ids : gset N) ∖ list_to_set (b_id <$> the_bindings)).
  assert (Hmiss : ∀ i, i ∈ iter_set env missing ↔ i ∈ the_ids ∧ i ∉ b_id <$> the_bindings).
  { intros i. rewrite (Hiter missing), elem_of_elements. unfold missing.
    rewrite elem_of_difference, !elem_of_list_to_set. done. }
  destruct (for_each _ _ _) as [r0 st] eqn:Hloop.
  apply append_defaults_shape in Hloop as (defaults & -> & Hin & Hr).
  assert (Forall (λ b, b_id b ∈ the_ids ∧ b_id b ∉ b_id <$> the_bindings) defaults)
    as Hdefaults.
  { eapply Forall_impl; [exact Hin|]. intros b Hb. by apply Hmiss. }
  destruct r0 as [e|[]]; intros [= <- <-]; exists defaults; split_and!; try done.
  - rewrite filter_app. f_equal. apply filter_all.
    eapply Forall_impl; [exact Hdefaults|]. by intros b [? _].
  - intros i Hi. rewrite filter_app, fmap_app, elem_of_app.
    destruct (decide (i ∈ b_id <$> the_bindings)) as [Hbound|Hnot].
    + left. apply list_elem_of_fmap in Hbound as (b & -> & Hb).
      apply list_elem_of_fmap_2, list_elem_of_filter. by split.
    + right. rewrite (filter_all _ defaults), Hr; [by apply Hmiss|].
      eapply Forall_impl; [exact Hdefaults|]. by intros b [? _].
Qed.

(** X13: when every member already has a binding, the reconciliation makes
    no lookup at all: whatever the store holds, it returns the stored
    bindings whose id is a member and appends nothing to the caller's list. *)
Theorem bindings_sanity_check_all_bound (env : Env) (db : Db) (self : WorkshopCollection.t)
    (the_ids : list ObjectId) (the_bindings : list Binding) (binding_cls : BindingCls) :
  iter_set_ok env →
  (∀ i, i ∈ the_ids → i ∈ b_id <$> the_bindings) →
  WorkshopCollection._bindings_sanity_check env db self the_ids binding_cls the_bindings
  = (inr (filter (λ b, b_id b ∈ the_ids) the_bindings), the_bindings).
Proof.
  intros Hiter Hbound. unfold WorkshopCollection._bindings_sanity_check. run.
  assert ((list_to_set the_ids : gset N) ∖ list_to_set (b_id <$> the_bindings) = ∅) as ->.
  { apply elem_of_equiv_empty_L. intros i.
    rewrite elem_of_difference, !elem_of_list_to_set. intros [Hin Hnot].
    by apply Hnot, Hbound. }
  assert (iter_set env ∅ = []) as ->; [|done].
  apply Permutation_nil_r. by rewrite (Hiter ∅), elements_empty.
Qed.

Lemma bindings_sanity_check_all_bound_witness :
  WorkshopCollection._bindings_sanity_check ex_env (mkDb ∅ ∅ ∅ [] []) ex_pack [1%N; 2%N]
    WorkshopAlias_cls [mkBinding "r" 1%N; mkBinding "a" 2%N; mkBinding "old" 5%N]
  = (inr (filter (λ b, b_id b ∈ [1%N; 2%N])
            [mkBinding "r" 1%N; mkBinding "a" 2%N; mkBinding "old" 5%N]),
     [mkBinding "r" 1%N; mkBinding "a" 2%N; mkBinding "old" 5%N]).
Proof.
  apply (bindings_sanity_check_all_bound ex_env (mkDb ∅ ∅ ∅ [] []) ex_pack [1%N; 2%N]
           [mkBinding "r" 1%N; mkBinding "a" 2%N; mkBinding "old" 5%N] WorkshopAlias_cls).
  - intros s. reflexivity.
  - intros i Hi.
    repeat (apply elem_of_cons in Hi as [->|Hi];
            [apply (bool_decide_unpack _); reflexivity|]).
    by apply elem_of_nil in Hi.
Defined.

(** X14: a reconciled list is a fixed point: when the reconciliation has
    returned a list, that list binds exactly the members (every member has a
    binding in it and every binding in it is of a member), and reconciling it
    again, with any store, returns it unchanged. *)
Theorem bindings_sanity_check_idempotent (env env' : Env) (db db' : Db)
    (self self' : WorkshopCollection.t) (the_ids : list ObjectId)
    (the_bindings result : list Binding) (binding_cls : BindingCls) :
  iter_set_ok env →
  iter_set_ok env' →
  (WorkshopCollection._bindings_sanity_check env db self the_ids binding_cls
     the_bindings).1 = inr result →
  (∀ i, i ∈ b_id <$> result ↔ i ∈ the_ids)
  ∧ WorkshopCollection._bindings_sanity_check env' db' self' the_ids binding_cls result
    = (inr result, result).
Proof.
  intros Hiter Hiter' Hrun.
  destruct (WorkshopCollection._bindings_sanity_check env db self the_ids binding_cls
              the_bindings) as [r st] eqn:Hcheck.
  simpl in Hrun. subst r.
  apply bindings_sanity_check_shape in Hcheck as (defaults & -> & Hdefaults & -> & Hcover);
    [|done].
  assert (Forall (λ b, b_id b ∈ the_ids)
            (filter (λ b, b_id b ∈ the_ids) the_bindings ++ defaults)) as Hmembers.
  { apply Forall_app. split.
    - apply Forall_forall. by intros b [? _]%list_elem_of_filter.
    - eapply Forall_impl; [exact Hdefaults|]. by intros b [? _]. }
  split.
  - intros i. split; [|by apply Hcover].
    intros (b & -> & Hb)%list_elem_of_fmap.
    by apply (proj1 (Forall_forall _ _) Hmembers).
  - rewrite bindings_sanity_check_bound by done. by rewrite filter_all.
Qed.

Lemma bindings_sanity_check_idempotent_witness :
  (∀ i, i ∈ b_id <$> [mkBinding "r" 1%N; mkBinding "adv" 2%N] ↔ i ∈ [1%N; 2%N])
  ∧ WorkshopCollection._bindings_sanity_check ex_env (mkDb ∅ ∅ ∅ [] []) ex_drafts
      [1%N; 2%N] WorkshopAlias_cls [mkBinding "r" 1%N; mkBinding "adv" 2%N]
    = (inr [mkBinding "r" 1%N; mkBinding "adv" 2%N],
       [mkBinding "r" 1%N; mkBinding "adv" 2%N]).
Proof.
  apply (bindings_sanity_check_idempotent ex_env ex_env ex_db (mkDb ∅ ∅ ∅ [] [])
           ex_pack ex_drafts [1%N; 2%N] [mkBinding "r" 1%N; mkBinding "old" 5%N]
           [mkBinding "r" 1%N; mkBinding "adv" 2%N] WorkshopAlias_cls).
  - intros s. reflexivity.
  - intros s. reflexivity.
  - reflexivity.
Defined.

(** X15: the reconciliation changes the caller's list only by appending: in
    every outcome the list passed in is still there in full, bindings of
    removed members included, followed by the defaults created before the
    call returned or raised, each for a member that had no binding; the list
    returned is a new one, and the only exception raised is
    [CollectableNotFound]. *)
Theorem bindings_sanity_check_appends (env : Env) (db : Db) (self : WorkshopCollection.t)
    (the_ids : list ObjectId) (the_bindings the_bindings' : list Binding)
    (binding_cls : BindingCls) (r : Exn + list Binding) :
  iter_set_ok env →
  WorkshopCollection._bindings_sanity_check env db self the_ids binding_cls the_bindings
  = (r, the_bindings') →
  ∃ defaults,
    the_bindings' = the_bindings ++ defaults
    ∧ Forall (λ b, b_id b ∈ the_ids ∧ b_id b ∉ b_id <$> the_bindings) defaults
    ∧ match r with
      | inr result => result = filter (λ b, b_id b ∈ the_ids) the_bindings'
      | inl e => e = CollectableNotFound
      end.
Proof.
  intros Hiter Hcheck.
  apply bindings_sanity_check_shape in Hcheck as (defaults & -> & Hdefaults & Hr); [|done].
  exists defaults. split_and!; [done|done|].
  destruct r as [e|result]; [done|]. destruct Hr as [-> _].
  rewrite filter_app. f_equal. symmetry. apply filter_all.
  eapply Forall_impl; [exact Hdefaults|]. by intros b [? _].
Qed.

Lemma bindings_sanity_check_appends_witness :
  ∃ defaults,
    [mkBinding "r" 1%N; mkBinding "old" 5%N; mkBinding "adv" 2%N]
    = [mkBinding "r" 1%N; mkBinding "old" 5%N] ++ defaults
    ∧ Forall (λ b, b_id b ∈ [1%N; 2%N]
                   ∧ b_id b ∉ b_id <$> [mkBinding "r" 1%N; mkBinding "old" 5%N]) defaults
    ∧ [mkBinding "r" 1%N; mkBinding "adv" 2%N]
      = filter (λ b, b_id b ∈ [1%N; 2%N])
          [mkBinding "r" 1%N; mkBinding "old" 5%N; mkBinding "adv" 2%N].
Proof.
  apply (bindings_sanity_check_appends ex_env ex_db ex_pack [1%N; 2%N]
           [mkBinding "r" 1%N; mkBinding "old" 5%N]
           [mkBinding "r" 1%N; mkBinding "old" 5%N; mkBinding "adv" 2%N]
           WorkshopAlias_cls (inr [mkBinding "r" 1%N; mkBinding "adv" 2%N])).
  - intros s. reflexivity.
  - reflexivity.
Defined.

Lemma update_one_subscription_unique (_id : ObjectId)
    (update : SubscriptionDoc → SubscriptionDoc) (subs : list SubscriptionDoc) :
  NoDup (sub__id <$> subs) →
  update_one_subscription _id update subs
  = (λ d, if decide (sub__id d = _id) then update d else d) <$> subs.
Proof.
  induction subs as [|d subs IH]; [done|].
  rewrite fmap_cons. intros [Hd Hsubs]%NoDup_cons. simpl.
  destruct (decide (sub__id d = _id)) as [Heq|Hne]; [|by rewrite IH].
  f_equal. clear IH Hsubs. induction subs as [|d' subs IH]; [done|].
  rewrite fmap_cons in Hd. apply not_elem_of_cons in Hd as [Hne Hd].
  simpl. rewrite decide_False by congruence. by rewrite <- IH.
Qed.

(** X16: [update_alias_bindings] and [update_snippet_bindings] write nothing
    when the reconciliation raises; otherwise, in a store whose subscriptions
    have distinct identifiers, they replace the alias (snippet) bindings of
    the subscription with the document's identifier by the reconciled list
    and leave every other subscription, every other field of that one, and
    the rest of the store as they were. *)
Theorem update_bindings_writes (env : Env) (db : Db) (self : WorkshopCollection.t)
    (subscription_doc : SubscriptionDoc) :
  NoDup (sub__id <$> workshop_subscriptions db) →
  match (WorkshopCollection._bindings_sanity_check env db self
           (WorkshopCollection._alias_ids self) WorkshopAlias_cls
           (alias_bindings subscription_doc)).1 with
  | inl e => WorkshopCollection.update_alias_bindings env self subscription_doc db
             = (inl e, db)
  | inr the_bindings =>
      WorkshopCollection.update_alias_bindings env self subscription_doc db
      = (inr tt,
         mkDb (workshop_collections db) (workshop_aliases db) (workshop_snippets db)
           ((λ d, if decide (sub__id d = sub__id subscription_doc)
                  then mkSubscriptionDoc (sub__id d) (sub_type d) (subscriber_id d)
                         (object_id d) the_bindings (snippet_bindings d)
                  else d) <$> workshop_subscriptions db)
           (analytics_alias_events db))
  end
  ∧ match (WorkshopCollection._bindings_sanity_check env db self
             (WorkshopCollection._snippet_ids self) WorkshopSnippet_cls
             (snippet_bindings subscription_doc)).1 with
    | inl e => WorkshopCollection.update_snippet_bindings env self subscription_doc db
               = (inl e, db)
    | inr the_bindings =>
        WorkshopCollection.update_snippet_bindings env self subscription_doc db
        = (inr tt,
           mkDb (workshop_collections db) (workshop_aliases db) (workshop_snippets db)
             ((λ d, if decide (sub__id d = sub__id subscription_doc)
                    then mkSubscriptionDoc (sub__id d) (sub_type d) (subscriber_id d)
                           (object_id d) (alias_bindings d) the_bindings
                    else d) <$> workshop_subscriptions db)
             (analytics_alias_events db))
    end.
Proof.
  intros Hunique. split.
  - unfold WorkshopCollection.update_alias_bindings. run.
    destruct (WorkshopCollection._bindings_sanity_check _ _ _ _ _ _).1; [done|].
    unfold set_subscriptions. by rewrite update_one_subscription_unique.
  - unfold WorkshopCollection.update_snippet_bindings. run.
    destruct (WorkshopCollection._bindings_sanity_check _ _ _ _ _ _).1; [done|].
    unfold set_subscriptions. by rewrite update_one_subscription_unique.
Qed.

Lemma update_bindings_writes_witness :
  WorkshopCollection.update_alias_bindings ex_env ex_pack ex_sub ex_db_subscribed
  = (inr tt,
     mkDb ex_collections ex_aliases ex_snippets
       [mkSubscriptionDoc 50%N "subscribe" 42 (Some 10%N)
          [mkBinding "r" 1%N; mkBinding "adv" 2%N] []] [])
  ∧ WorkshopCollection.update_snippet_bindings ex_env ex_pack ex_sub ex_db_subscribed
    = (inr tt,
       mkDb ex_collections ex_aliases ex_snippets
         [mkSubscriptionDoc 50%N "subscribe" 42 (Some 10%N)
            [mkBinding "r" 1%N; mkBinding "old" 5%N] [mkBinding "bless" 3%N]] []).
Proof.
  apply (update_bindings_writes ex_env ex_db_subscribed ex_pack ex_sub).
  repeat constructor. apply not_elem_of_nil.
Defined.

(** ** Subscribing, continued *)

Lemma to_dict_set_caches (self : WorkshopCollection.t)
    (v1 : option (list WorkshopAlias.t)) (v2 : option (list WorkshopSnippet.t)) :
  WorkshopCollection.to_dict
    (WorkshopCollection.set_snippets v2 (WorkshopCollection.set_aliases v1 self))
  = WorkshopCollection.to_dict self.
Proof. done. Qed.

Lemma subscribe_self `{SubscriberMixin} (env : Env) (user_id : Z) (db db' : Db)
    (self self' : WorkshopCollection.t) (r : Exn + unit) :
  WorkshopCollection.subscribe env user_id (db, self) = (r, (db', self')) →
  ∃ v1 v2,
    self' = WorkshopCollection.set_snippets v2 (WorkshopCollection.set_aliases v1 self).
Proof.
  assert (self = WorkshopCollection.set_snippets (WorkshopCollection._snippets self)
                   (WorkshopCollection.set_aliases (WorkshopCollection._aliases self) self))
    as Hself by by destruct self.
  unfold WorkshopCollection.subscribe. run.
  destruct (is_subscribed _ _ _); simpl; [intros [= <- <- <-]; eauto|].
  destruct (_ && _); simpl; [intros [= <- <- <-]; eauto|].
  destruct (WorkshopCollection._generate_default_alias_bindings env (db, self))
    as [[e|ab] [db1 self1]] eqn:Ha;
    apply generate_default_alias_bindings_frame in Ha as [-> [v1 ->]].
  { intros [= <- <- <-]. exists v1, (WorkshopCollection._snippets self). by destruct self. }
  destruct (WorkshopCollection._generate_default_snippet_bindings env _)
    as [[e|sb] [db2 self2]] eqn:Hs;
    apply generate_default_snippet_bindings_frame in Hs as [-> [v2 ->]];
    intros [= <- <- <-]; eauto.
Qed.

Lemma set_server_active_self `{GuildActiveMixin} (env : Env) (guild_id : Z) (db db' : Db)
    (self self' : WorkshopCollection.t) (r : Exn + unit) :
  WorkshopCollection.set_server_active env guild_id (db, self) = (r, (db', self')) →
  ∃ v1 v2,
    self' = WorkshopCollection.set_snippets v2 (WorkshopCollection.set_aliases v1 self).
Proof.
  assert (self = WorkshopCollection.set_snippets (WorkshopCollection._snippets self)
                   (WorkshopCollection.set_aliases (WorkshopCollection._aliases self) self))
    as Hself by by destruct self.
  unfold WorkshopCollection.set_server_active. run.
  destruct (is_server_active _ _ _); simpl; [intros [= <- <- <-]; eauto|].
  destruct (bool_decide _); simpl; [intros [= <- <- <-]; eauto|].
  destruct (WorkshopCollection._generate_default_alias_bindings env (db, self))
    as [[e|ab] [db1 self1]] eqn:Ha;
    apply generate_default_alias_bindings_frame in Ha as [-> [v1 ->]].
  { intros [= <- <- <-]. exists v1, (WorkshopCollection._snippets self). by destruct self. }
  destruct (WorkshopCollection._generate_default_snippet_bindings env _)
    as [[e|sb] [db2 self2]] eqn:Hs;
    apply generate_default_snippet_bindings_frame in Hs as [-> [v2 ->]];
    intros [= <- <- <-]; eauto.
Qed.

(** X17: none of the four operations updates the object in memory: whatever
    the outcome, [subscribe] and [set_server_active] leave every attribute
    that [to_dict] writes, and the identifier, as they were (only the two
    caches may have been loaded), and [unsubscribe] and
    [unset_server_active] leave the object untouched.  So the counters in
    memory do not follow the stored ones. *)
Theorem operations_leave_object `{SubscriberMixin} `{GuildActiveMixin}
    (env : Env) (subscriber : Z) (db db' : Db) (self self' : WorkshopCollection.t)
    (r : Exn + unit) :
  (WorkshopCollection.subscribe env subscriber (db, self) = (r, (db', self')) →
   WorkshopCollection.to_dict self' = WorkshopCollection.to_dict self
   ∧ WorkshopCollection.id self' = WorkshopCollection.id self)
  ∧ (WorkshopCollection.set_server_active env subscriber (db, self) = (r, (db', self')) →
     WorkshopCollection.to_dict self' = WorkshopCollection.to_dict self
     ∧ WorkshopCollection.id self' = WorkshopCollection.id self)
  ∧ (WorkshopCollection.unsubscribe env subscriber (db, self) = (r, (db', self')) →
     self' = self)
  ∧ (WorkshopCollection.unset_server_active env subscriber (db, self) = (r, (db', self')) →
     self' = self).
Proof.
  split_and!.
  - by intros (v1 & v2 & ->)%subscribe_self.
  - by intros (v1 & v2 & ->)%set_server_active_self.
  - destruct (SubscriberMixin_unsubscribe (WorkshopCollection.id self) subscriber db)
      as [r1 db1] eqn:Hsuper.
    rewrite (unsubscribe_run env db db1 self subscriber r1 Hsuper).
    destruct r1; by intros [= <- <- <-].
  - destruct (GuildActiveMixin_unset_server_active (WorkshopCollection.id self)
                subscriber db) as [r1 db1] eqn:Hsuper.
    rewrite (unset_server_active_run env db db1 self subscriber r1 Hsuper).
    destruct r1; by intros [= <- <- <-].
Qed.

Lemma operations_leave_object_witness :
  ∃ db' self',
    WorkshopCollection.subscribe ex_env 42 (ex_db, ex_pack) = (inr tt, (db', self'))
    ∧ (WorkshopCollection.to_dict self' = WorkshopCollection.to_dict ex_pack
       ∧ WorkshopCollection.id self' = WorkshopCollection.id ex_pack)
    ∧ num_subscribers db' 10%N = Some 1
    ∧ WorkshopCollection.approx_num_subscribers self' = 0.
Proof.
  eexists _, _. split; [reflexivity|].
  split; [|split; reflexivity].
  eapply (proj1 (operations_leave_object ex_env 42 ex_db _ ex_pack _ (inr tt))).
  reflexivity.
Defined.

(** X18: a second [subscribe] by the same user, and a second
    [set_server_active] for the same guild, raises [NotAllowed], for every
    implementation of the mixins whose test sees the stored join record. *)
Theorem subscribe_twice `{SubscriberMixin} `{GuildActiveMixin}
    (env1 env2 : Env) (subscriber : Z) (st st1 : Db * WorkshopCollection.t) :
  (∀ db self_id u d,
     d ∈ workshop_subscriptions db → is_join_record "subscribe" self_id u d = true →
     is_subscribed db self_id u = true) →
  (∀ db self_id g d,
     d ∈ workshop_subscriptions db → is_join_record "server_active" self_id g d = true →
     is_server_active db self_id g = true) →
  (WorkshopCollection.subscribe env1 subscriber st = (inr tt, st1) →
   WorkshopCollection.subscribe env2 subscriber st1
   = (inl (NotAllowed "You are already subscribed to this."), st1))
  ∧ (WorkshopCollection.set_server_active env1 subscriber st = (inr tt, st1) →
     WorkshopCollection.set_server_active env2 subscriber st1
     = (inl (NotAllowed "This collection is already installed on this server."), st1)).
Proof.
  intros Hsub Hact. destruct st as [db self], st1 as [db1 self1]. split; intros Hrun.
  - destruct (subscribe_cases env1 db self subscriber)
      as [(e & self' & Hcase)|(ab & sb & self' & Hcase & Hid)]; [congruence|].
    rewrite Hcase in Hrun. injection Hrun as <- <-.
    unfold WorkshopCollection.subscribe. run.
    rewrite (Hsub _ _ _ (mkSubscriptionDoc (new_oid env1) "subscribe" subscriber
                           (WorkshopCollection.id self) ab sb)); [done| |].
    + simpl. apply elem_of_app. right. by apply list_elem_of_singleton.
    + unfold is_join_record. simpl. by rewrite Hid, !bool_decide_eq_true_2.
  - destruct (set_server_active_cases env1 db self subscriber)
      as [(e & self' & Hcase)|(ab & sb & self' & Hcase & Hid)]; [congruence|].
    rewrite Hcase in Hrun. injection Hrun as <- <-.
    unfold WorkshopCollection.set_server_active. run.
    rewrite (Hact _ _ _ (mkSubscriptionDoc (new_oid env1) "server_active" subscriber
                           (WorkshopCollection.id self) ab sb)); [done| |].
    + simpl. apply elem_of_app. right. by apply list_elem_of_singleton.
    + unfold is_join_record. simpl. by rewrite Hid, !bool_decide_eq_true_2.
Qed.

Lemma existsb_elem_of {A} (f : A → bool) (l : list A) (x : A) :
  x ∈ l → f x = true → existsb f l = true.
Proof.
  intros Hx Hf. apply existsb_exists. exists x. split; [|done].
  by apply list_elem_of_In.
Qed.

Lemma spec_is_subscribed_joined (db : Db) (self_id : option ObjectId) (u : Z)
    (d : SubscriptionDoc) :
  d ∈ workshop_subscriptions db → is_join_record "subscribe" self_id u d = true →
  is_subscribed db self_id u = true.
Proof. apply existsb_elem_of. Qed.

Lemma spec_is_server_active_joined (db : Db) (self_id : option ObjectId) (g : Z)
    (d : SubscriptionDoc) :
  d ∈ workshop_subscriptions db → is_join_record "server_active" self_id g d = true →
  is_server_active db self_id g = true.
Proof. apply existsb_elem_of. Qed.

Lemma subscribe_twice_witness :
  WorkshopCollection.subscribe ex_env 42 (ex_db, ex_pack)
  = (inr tt, (WorkshopCollection.subscribe ex_env 42 (ex_db, ex_pack)).2)
  ∧ WorkshopCollection.subscribe ex_env 42
      (WorkshopCollection.subscribe ex_env 42 (ex_db, ex_pack)).2
    = (inl (NotAllowed "You are already subscribed to this."),
       (WorkshopCollection.subscribe ex_env 42 (ex_db, ex_pack)).2).
Proof.
  split; [reflexivity|].
  apply (proj1 (subscribe_twice ex_env ex_env 42 (ex_db, ex_pack) _
                  spec_is_subscribed_joined spec_is_server_active_joined)).
  reflexivity.
Defined.

(** X19: when the inherited removal raises, [unsubscribe] and
    [unset_server_active] pass the exception on and do nothing more: the
    store is as the removal left it, with no counter decremented and no event
    logged. *)
Theorem unsubscribe_removal_raises `{SubscriberMixin} `{GuildActiveMixin}
    (env : Env) (db db1 : Db) (self : WorkshopCollection.t) (subscriber : Z) (e : Exn) :
  (SubscriberMixin_unsubscribe (WorkshopCollection.id self) subscriber db = (inl e, db1) →
   WorkshopCollection.unsubscribe env subscriber (db, self) = (inl e, (db1, self)))
  ∧ (GuildActiveMixin_unset_server_active (WorkshopCollection.id self) subscriber db
     = (inl e, db1) →
     WorkshopCollection.unset_server_active env subscriber (db, self)
     = (inl e, (db1, self))).
Proof.
  split; intros Hsuper.
  - unfold WorkshopCollection.unsubscribe. run. by rewrite Hsuper.
  - unfold WorkshopCollection.unset_server_active. run. by rewrite Hsuper.
Qed.

Lemma unsubscribe_removal_raises_witness :
  @WorkshopCollection.unsubscribe strict_SubscriberMixin ex_env 42 (ex_db, ex_pack)
  = (inl (NotAllowed "You are not subscribed to this."), (ex_db, ex_pack))
  ∧ num_subscribers ex_db 10%N = Some 0.
Proof.
  split; [|reflexivity].
  apply (proj1 (@unsubscribe_removal_raises strict_SubscriberMixin spec_GuildActiveMixin
                  ex_env ex_db ex_db ex_pack 42
                  (NotAllowed "You are not subscribed to this."))).
  reflexivity.
Defined.

Lemma update_one_collection_missing (_id : option ObjectId)
    (update : CollectionDoc → CollectionDoc) (db : Db) :
  (∀ i, _id = Some i → workshop_collections db !! i = None) →
  workshop_collections (update_one_collection _id update db) = workshop_collections db.
Proof.
  intros Hmissing. destruct _id as [i|]; simpl; [|done].
  apply map_eq. intros k. rewrite lookup_alter.
  case_decide; [|done]. subst. by rewrite Hmissing.
Qed.

(** X20: on a collection without stored document (never inserted, so without
    identifier, or deleted) a [subscribe] or [set_server_active] that returns
    has still inserted the subscription record, under the collection's
    identifier as it is, and logged the event, but has changed no counter:
    the stored collections are as they were. *)
Theorem subscribe_without_document `{SubscriberMixin} `{GuildActiveMixin}
    (env : Env) (subscriber : Z) (db db' : Db) (self self' : WorkshopCollection.t) :
  (∀ i, WorkshopCollection.id self = Some i → workshop_collections db !! i = None) →
  (WorkshopCollection.subscribe env subscriber (db, self) = (inr tt, (db', self')) →
   workshop_collections db' = workshop_collections db
   ∧ (∃ ab sb, workshop_subscriptions db'
               = workshop_subscriptions db
                 ++ [mkSubscriptionDoc (new_oid env) "subscribe" subscriber
                       (WorkshopCollection.id self) ab sb])
   ∧ analytics_alias_events db'
     = analytics_alias_events db
       ++ [mkAnalyticsEvent "subscribe" (WorkshopCollection.id self)
             (bson_datetime (utcnow env))])
  ∧ (WorkshopCollection.set_server_active env subscriber (db, self)
     = (inr tt, (db', self')) →
     workshop_collections db' = workshop_collections db
     ∧ (∃ ab sb, workshop_subscriptions db'
                 = workshop_subscriptions db
                   ++ [mkSubscriptionDoc (new_oid env) "server_active" subscriber
                         (WorkshopCollection.id self) ab sb])
     ∧ analytics_alias_events db'
       = analytics_alias_events db
         ++ [mkAnalyticsEvent "server_subscribe" (WorkshopCollection.id self)
               (bson_datetime (utcnow env))]).
Proof.
  intros Hmissing. split; intros Hrun.
  - destruct (subscribe_cases env db self subscriber)
      as [(e & self1 & Hcase)|(ab & sb & self1 & Hcase & _)]; [congruence|].
    rewrite Hcase in Hrun. injection Hrun as <- <-. split_and!.
    + change (workshop_collections (insert_event ?ev ?d)) with (workshop_collections d).
      by rewrite update_one_collection_missing.
    + by exists ab, sb.
    + done.
  - destruct (set_server_active_cases env db self subscriber)
      as [(e & self1 & Hcase)|(ab & sb & self1 & Hcase & _)]; [congruence|].
    rewrite Hcase in Hrun. injection Hrun as <- <-. split_and!.
    + change (workshop_collections (insert_event ?ev ?d)) with (workshop_collections d).
      by rewrite update_one_collection_missing.
    + by exists ab, sb.
    + done.
Qed.

Lemma subscribe_without_document_witness :
  ∃ db' self',
    WorkshopCollection.subscribe ex_env 42 (ex_db, ex_unsaved) = (inr tt, (db', self'))
    ∧ workshop_collections db' = workshop_collections ex_db
    ∧ (∃ ab sb, workshop_subscriptions db'
                = workshop_subscriptions ex_db
                  ++ [mkSubscriptionDoc (new_oid ex_env) "subscribe" 42
                        (WorkshopCollection.id ex_unsaved) ab sb])
    ∧ analytics_alias_events db'
      = analytics_alias_events ex_db
        ++ [mkAnalyticsEvent "subscribe" (WorkshopCollection.id ex_unsaved)
              (bson_datetime (utcnow ex_env))].
Proof.
  eexists _, _. split; [reflexivity|].
  eapply (proj1 (subscribe_without_document ex_env 42 ex_db _ ex_unsaved _
                   (λ i (Hid : None = Some i), match Hid with end))).
  reflexivity.
Defined.





(** ** A new collection *)

(** X1: for a creator whose identifier fits in 8 bytes, a collection that
    has just been created admits only its creator.  The creator's
    [subscribe] stores a subscription without bindings and brings the stored
    subscriber counter to one, unless [is_subscribed] reports the creator as
    subscribed already, when it raises the [NotAllowed] of that test.  A
    [subscribe] by anybody else and a [set_server_active] for any guild raise
    [NotAllowed] and write nothing: "This collection is private.", unless
    [is_subscribed] or [is_server_active] reports the user or the guild as
    subscribed or active already, when the message is that of that test. *)
Theorem create_new_then_subscribe `{SubscriberMixin} `{GuildActiveMixin}
    (env env2 : Env) (db : Db) (creator : Z) (name description : string)
    (image : option string) (user_id guild_id : Z) :
  bson_int creator →
  ∃ inst db1,
    WorkshopCollection.create_new env creator name description image db = (inr inst, db1)
    ∧ (if is_subscribed db1 (WorkshopCollection.id inst) creator
       then WorkshopCollection.subscribe env2 creator (db1, inst)
            = (inl (NotAllowed "You are already subscribed to this."), (db1, inst))
       else ∃ db2 self2,
              WorkshopCollection.subscribe env2 creator (db1, inst) = (inr tt, (db2, self2))
              ∧ workshop_subscriptions db2
                = workshop_subscriptions db
                  ++ [mkSubscriptionDoc (new_oid env2) "subscribe" creator
                        (Some (new_oid env)) [] []]
              ∧ num_subscribers db2 (new_oid env) = Some 1)
    ∧ (user_id ≠ creator →
       WorkshopCollection.subscribe env2 user_id (db1, inst)
       = (inl (NotAllowed
                 (if is_subscribed db1 (WorkshopCollection.id inst) user_id
                  then "You are already subscribed to this."
                  else "This collection is private.")),
          (db1, inst)))
    ∧ WorkshopCollection.set_server_active env2 guild_id (db1, inst)
      = (inl (NotAllowed
                (if is_server_active db1 (WorkshopCollection.id inst) guild_id
                 then "This collection is already installed on this server."
                 else "This collection is private.")),
         (db1, inst)).
Proof.
  intros Hfits.
  eexists _, _. split; [by apply create_new_returns|]. split_and!.
  - destruct (is_subscribed _ _ creator) eqn:Hsub.
    + unfold WorkshopCollection.subscribe. run. by rewrite Hsub.
    + eexists _, _. split_and!.
      * unfold WorkshopCollection.subscribe. run. rewrite Hsub. simpl.
        unfold WorkshopCollection.is_owner. simpl.
        rewrite (bool_decide_eq_true_2 (creator = creator)) by done. reflexivity.
      * done.
      * unfold num_subscribers. simpl. by rewrite lookup_alter_eq, lookup_insert_eq.
  - intros Hne. unfold WorkshopCollection.subscribe. run.
    destruct (is_subscribed _ _ user_id); [done|]. simpl.
    unfold WorkshopCollection.is_owner. simpl.
    by rewrite (bool_decide_eq_false_2 (user_id = creator)).
  - unfold WorkshopCollection.set_server_active. run.
    by destruct (is_server_active _ _ guild_id).
Qed.

Lemma create_new_then_subscribe_witness :
  ∃ inst db1,
    WorkshopCollection.create_new ex_env 7 "notes" "" None ex_db = (inr inst, db1)
    ∧ (∃ db2 self2,
         WorkshopCollection.subscribe ex_env 7 (db1, inst) = (inr tt, (db2, self2))
         ∧ workshop_subscriptions db2
           = workshop_subscriptions ex_db
             ++ [mkSubscriptionDoc (new_oid ex_env) "subscribe" 7
                   (Some (new_oid ex_env)) [] []]
         ∧ num_subscribers db2 (new_oid ex_env) = Some 1)
    ∧ WorkshopCollection.subscribe ex_env 42 (db1, inst)
      = (inl (NotAllowed "This collection is private."), (db1, inst))
    ∧ WorkshopCollection.set_server_active ex_env 300 (db1, inst)
      = (inl (NotAllowed "This collection is private."), (db1, inst)).
Proof.
  destruct (create_new_then_subscribe ex_env ex_env ex_db 7 "notes" "" None 42 300)
    as (inst & db1 & Hnew & Hcreator & Hother & Hguild).
  { unfold bson_int. lia. }
  exists inst, db1. rewrite create_new_returns in Hnew by (unfold bson_int; lia).
  injection Hnew as <- <-.
  split_and!; [reflexivity|exact Hcreator|by apply Hother|exact Hguild].
Defined.
